(** * StashKu request builders: DeleteRequest, PatchRequest, PutRequest

    A shallow embedding of [src/requests/delete-request.js] and of the
    PatchRequest and PutRequest classes of [src/requests/patch-request.js],
    with the theorems that settle the specification's claims about them.

    JavaScript values are a first-order datatype; every object carries the
    reference that gives it its identity.  A request is an entry of a store,
    its [metadata] an object used as a dictionary (a [gmap]); the methods are
    written in a state-and-exception monad over the store, one statement of
    the source per monadic step. *)

From stdpp Require Import base option numbers list strings pretty gmap fin_maps.

Local Open Scope string_scope.
Local Open Scope list_scope.
Set Warnings "-register-all".
Set Default Proof Using "Type".

(** ** Model types (the classes handed to [model]) *)

(** Modelled from the spec: the Property Definition of section 3 (the fields
    the request builders depend on). *)
Record PropertyDefinition := {
  target : string;
  type : string;
  pk : bool
}.

(** Modelled from the spec: the Resource Configuration of section 3. *)
Record ResourceConfiguration := {
  resource : option string;
  name : option string;
  slug : option string;
  plural_name : option string;
  plural_slug : option string
}.

(** Modelled from the spec: the Model contract of section 6 (modeling/model.js
    is not among the sources).  A model class has its [name], its static
    [$stashku] configuration and its static property definitions in
    declaration order; [class_plural] is the plural of its name as
    StringUtility.plural gives it (it delegates to the pluralize library,
    which is not among the sources either). *)
Record ModelType := {
  class_name : string;
  class_plural : string;
  stashku : option ResourceConfiguration;
  properties : list (string * PropertyDefinition)
}.

(** ** Values *)

(** Numbers are integers (no NaN, no fractions: no builder computes with
    them).  [VFunction] is a callable, [VClass] a model class (also a
    function for [typeof]); [VPlain] an object literal with its own
    enumerable properties in order, [VMap] a [Map] with its entries in
    insertion order, [VInstance] an instance of any other class (Filter,
    Date, ...) with its own enumerable properties. *)
Inductive value :=
| VUndefined
| VNull
| VBool (b : bool)
| VNum (n : Z)
| VStr (s : string)
| VFunction (ref : nat) (fname : string)
| VClass (ref : nat) (m : ModelType)
| VPlain (ref : nat) (props : list (string * value))
| VArray (ref : nat) (items : list value)
| VMap (ref : nat) (entries : list (value * value))
| VInstance (ref : nat) (cls : string) (props : list (string * value)).

Definition typeof (v : value) : string :=
  match v with
  | VUndefined => "undefined"
  | VNull => "object"
  | VBool _ => "boolean"
  | VNum _ => "number"
  | VStr _ => "string"
  | VFunction _ _ | VClass _ _ => "function"
  | VPlain _ _ | VArray _ _ | VMap _ _ | VInstance _ _ _ => "object"
  end.

(** [v === null] *)
Definition is_null (v : value) : bool :=
  match v with VNull => true | _ => false end.

(** [typeof v === 'undefined'] *)
Definition is_undefined (v : value) : bool :=
  match v with VUndefined => true | _ => false end.

(** [!!v] *)
Definition truthy (v : value) : bool :=
  match v with
  | VUndefined | VNull => false
  | VBool b => b
  | VNum n => negb (n =? 0)%Z
  | VStr s => negb (String.eqb s "")
  | _ => true
  end.

Definition isArray (v : value) : bool :=
  match v with VArray _ _ => true | _ => false end.

(** [v instanceof Map] *)
Definition is_map (v : value) : bool :=
  match v with VMap _ _ => true | _ => false end.

(** [v instanceof Filter] *)
Definition is_filter (v : value) : bool :=
  match v with VInstance _ cls _ => String.eqb cls "Filter" | _ => false end.

Definition ref_of (v : value) : option nat :=
  match v with
  | VFunction r _ | VClass r _ | VPlain r _ | VArray r _ | VMap r _
  | VInstance r _ _ => Some r
  | _ => None
  end.

(** [a === b]: primitives by value, objects by reference. *)
Definition strict_eq (a b : value) : bool :=
  match a, b with
  | VUndefined, VUndefined => true
  | VNull, VNull => true
  | VBool x, VBool y => Bool.eqb x y
  | VNum x, VNum y => (x =? y)%Z
  | VStr x, VStr y => String.eqb x y
  | _, _ =>
    match ref_of a, ref_of b with
    | Some r, Some r' => Nat.eqb r r'
    | _, _ => false
    end
  end.

Arguments strict_eq : simpl never.

(** [arr.indexOf(v) >= 0] *)
Definition includes (v : value) (arr : list value) : bool :=
  existsb (strict_eq v) arr.

(** [Array.prototype.flat(Infinity)] on one element, and on an argument
    list. *)
Fixpoint flat_value (v : value) : list value :=
  match v with
  | VArray _ items =>
    (fix go (l : list value) : list value :=
       match l with
       | [] => []
       | x :: l' => flat_value x ++ go l'
       end) items
  | _ => [v]
  end.

Definition flat_infinity (l : list value) : list value :=
  concat (map flat_value l).

(** [Array.prototype.flat()]: one level. *)
Definition flat_one (l : list value) : list value :=
  concat (map (λ v, match v with VArray _ items => items | _ => [v] end) l).

(** ** Objects and Maps *)

(** [o[k]] on the own properties of an object. *)
Fixpoint obj_get (k : string) (o : list (string * value)) : value :=
  match o with
  | [] => VUndefined
  | (k', v) :: o' => if String.eqb k k' then v else obj_get k o'
  end.

(** The value of a decimal digit. *)
Definition digit (c : Ascii.ascii) : option N :=
  let n := Ascii.N_of_ascii c in
  if (48 <=? n)%N && (n <=? 57)%N then Some (n - 48)%N else None.

(** The number a string of decimal digits writes, after [acc]. *)
Fixpoint numeral (acc : N) (s : string) : option N :=
  match s with
  | EmptyString => Some acc
  | String c s' =>
    match digit c with
    | Some d => numeral (10 * acc + d)%N s'
    | None => None
    end
  end.

(** The array index a property key is, if any (ECMAScript, 6.1.7): the key
    is the canonical numeral of an integer from 0 to 2^32 - 2. *)
Definition array_index (k : string) : option N :=
  match numeral 0 k with
  | Some n =>
    if String.eqb (pretty n) k && (n <=? 4294967294)%N then Some n else None
  | None => None
  end.

(** An array index [i] is listed before the key [k']: before a larger index
    and before any key that is no index. *)
Definition index_before (i : N) (k' : string) : bool :=
  match array_index k' with
  | Some j => (i <? j)%N
  | None => true
  end.

(** [k in o], for an own property. *)
Definition has_own (k : string) (o : list (string * value)) : bool :=
  existsb (λ p, String.eqb k p.1) o.

(** A property that exists takes its new value where it is. *)
Fixpoint obj_replace (k : string) (v : value) (o : list (string * value))
  : list (string * value) :=
  match o with
  | [] => []
  | (k', v') :: o' =>
    if String.eqb k k' then (k, v) :: o' else (k', v') :: obj_replace k v o'
  end.

(** A new property takes its place in the order in which JavaScript lists
    the own properties of an object (OrdinaryOwnPropertyKeys): an array index
    after the smaller indices and before every other key, any other key
    last. *)
Fixpoint obj_insert (k : string) (v : value) (o : list (string * value))
  : list (string * value) :=
  match o with
  | [] => [(k, v)]
  | (k', v') :: o' =>
    match array_index k with
    | Some i =>
      if index_before i k' then (k, v) :: o else (k', v') :: obj_insert k v o'
    | None => (k', v') :: obj_insert k v o'
    end
  end.

(** [o[k] = v] *)
Definition obj_set (k : string) (v : value) (o : list (string * value))
  : list (string * value) :=
  if has_own k o then obj_replace k v o else obj_insert k v o.

(** [Map.prototype.get], [set] and [delete]; keys are compared with
    [strict_eq] (SameValueZero without NaN).  A Map holds a key once: [get]
    and [set] act on its first entry, [delete] leaves none behind. *)
Fixpoint map_get (k : value) (m : list (value * value)) : option value :=
  match m with
  | [] => None
  | (k', v) :: m' => if strict_eq k k' then Some v else map_get k m'
  end.

Fixpoint map_set (k v : value) (m : list (value * value))
  : list (value * value) :=
  match m with
  | [] => [(k, v)]
  | (k', v') :: m' =>
    if strict_eq k k' then (k', v) :: m' else (k', v') :: map_set k v m'
  end.

Fixpoint map_delete (k : value) (m : list (value * value))
  : list (value * value) :=
  match m with
  | [] => []
  | (k', v') :: m' =>
    if strict_eq k k' then map_delete k m' else (k', v') :: map_delete k m'
  end.

Fixpoint string_chars (s : string) : list value :=
  match s with
  | EmptyString => []
  | String c s' => VStr (String c EmptyString) :: string_chars s'
  end.

Definition indexed (l : list value) : list (string * value) :=
  imap (λ i v, (pretty i, v)) l.

(** [Object.entries(v)]: the own enumerable string-keyed properties.  [None]
    is the TypeError of [Object.keys(undefined)].  A Map, a function and a
    class (whose static getters are not enumerable) have none. *)
Definition own_entries (v : value) : option (list (string * value)) :=
  match v with
  | VUndefined | VNull => None
  | VBool _ | VNum _ => Some []
  | VStr s => Some (indexed (string_chars s))
  | VFunction _ _ | VClass _ _ | VMap _ _ => Some []
  | VPlain _ props | VInstance _ _ props => Some props
  | VArray _ items => Some (indexed items)
  end.

(** Modelled from the spec: the object the getter of a static property of a
    model class returns, a Property Definition of section 3 with the fields
    of [PropertyDefinition], written as the generated class BaseThemeModel
    writes them: target, pk when it is true, type. *)
Definition definition_object (d : PropertyDefinition)
  : list (string * value) :=
  ("target", VStr (target d))
  :: (if pk d then [("pk", VBool true)] else [])
  ++ [("type", VStr (type d))].

(** The static member of a model class called [k]: of two declarations with
    one name the later stands. *)
Definition static_member (k : string) (m : ModelType)
  : option PropertyDefinition :=
  foldl (λ found p, if String.eqb k p.1 then Some p.2 else found) None
        (properties m).

(** ** ModelUtility (modeling/model-utility.js is not among the sources) *)

Module ModelUtility.

(** Modelled from the spec: ModelUtility.isValidType; the model argument
    must be a class or constructor (section 4.3 and the error message of
    [model]). *)
Definition isValidType (v : value) : bool :=
  match v with VClass _ _ => true | _ => false end.

(** Modelled from the spec: ModelUtility.resource, the precedence chain of
    section 3: resource, name, slug, plural.name, plural.slug, pluralized
    class name. *)
Definition resource_name (m : ModelType) : string :=
  let pick (f : ResourceConfiguration → option string) :=
    c ← stashku m; f c in
  default (class_plural m)
    (pick resource ∪ pick name ∪ pick slug ∪ pick plural_name
     ∪ pick plural_slug).

(** Modelled from the spec: ModelUtility.resource(modelType, method); the
    spec gives one chain for every request kind. *)
Definition resource (modelType : value) (method : string) : value :=
  match modelType with
  | VClass _ m => VStr (resource_name m)
  | _ => VNull
  end.

(** Modelled from the spec: ModelUtility.pk (extractPrimaryKeys of section
    4.2): the names of the properties declared with [pk: true], in
    declaration order. *)
Definition pk_names (m : ModelType) : list string :=
  (filter (λ p, pk p.2 = true) (properties m)).*1.

(** Modelled from the spec: ModelUtility.pk(modelType), the array of those
    names. *)
Definition pk (modelType : value) : list value :=
  match modelType with
  | VClass _ m => VStr <$> pk_names m
  | _ => []
  end.

End ModelUtility.

(** ** The store and the monad *)

Inductive error :=
| InvalidModelType      (* Invalid modelType argument. ... *)
| InvalidConditions     (* The conditions argument must be null, a callback, or a Filter instance. *)
| InvalidName           (* Invalid name argument. The value must be a string or null. *)
| InvalidTemplate       (* Invalid template argument. ... *)
| InvalidDictionary     (* The dictionary argument must be null, a Map, or an object. *)
| NonStringKey          (* An invalid non-string key value was provided in the dictionary argument. ... *)
| StandardMetadata (k : string) (* The metadata property k is in use by a standard request method. ... *)
| InvalidPrimaryKeys    (* Invalid primaryKeys argument. The array contains a non-string value. *)
| InvalidObjects        (* Invalid objects argument. Values must be an object. *)
| TypeError             (* raised by the runtime: property access on null, call of a non-function *)
| Thrown (v : value).   (* whatever a callback throws *)

Inductive outcome (A : Type) :=
| Return (a : A)
| Throw (e : error).
Arguments Return {A} a.
Arguments Throw {A} e.

(** A request instance: [this.metadata] is an object or, when a caller has
    emptied it, null ([None]). *)
Record request := Request { metadata : option (gmap string value) }.

(** What a function value does when a [where] setter calls it with a Filter:
    it updates the own properties of that Filter in place, or throws. *)
Definition callback : Type :=
  list (string * value) → outcome (list (string * value)).

Record world := World {
  next_ref : nat;
  requests : gmap nat request;
  functions : gmap nat callback
}.

Definition M (A : Type) : Type := world → outcome A * world.

#[global] Instance M_ret : MRet M := λ A a w, (Return a, w).
#[global] Instance M_bind : MBind M := λ A B f c w,
  match c w with
  | (Return a, w') => f a w'
  | (Throw e, w') => (Throw e, w')
  end.

Definition throw {A} (e : error) : M A := λ w, (Throw e, w).

(** A fresh object reference. *)
Definition fresh : M nat := λ w,
  (Return (next_ref w),
   World (S (next_ref w)) (requests w) (functions w)).

(** [this.metadata], which must be an object to be read from or written to. *)
Definition get_metadata (this : nat) : M (gmap string value) := λ w,
  match requests w !! this with
  | Some (Request (Some md)) => (Return md, w)
  | _ => (Throw TypeError, w)
  end.

Definition set_metadata (this : nat) (md : gmap string value) : M unit := λ w,
  (Return (), World (next_ref w) (<[this := Request (Some md)]> (requests w))
                    (functions w)).

(** [this.metadata.k] *)
Definition get_field (this : nat) (k : string) : M value :=
  md ← get_metadata this; mret (default VUndefined (md !! k)).

(** [this.metadata.k = v] *)
Definition set_field (this : nat) (k : string) (v : value) : M unit :=
  md ← get_metadata this; set_metadata this (<[k := v]> md).

(** [[]] and [new Map()] *)
Definition new_array : M value := r ← fresh; mret (VArray r []).
Definition new_map : M value := r ← fresh; mret (VMap r []).

(** Modelled from the spec: [new Filter()], a builder whose tree is null (no
    filtering) until conditions are added (section 3; filter.js is not among
    the sources). *)
Definition new_filter : M value :=
  r ← fresh; mret (VInstance r "Filter" [("tree", VNull)]).

(** [f(filter)] for its effect on the Filter (the value [f] returns is dropped
    by the caller): the result is the Filter as [f] leaves it.  A class called
    without [new] raises a TypeError; a function without a registered
    behaviour does nothing. *)
Definition call_with_filter (f filter : value) : M value := λ w,
  match f, filter with
  | VFunction r _, VInstance fr cls props =>
    match functions w !! r with
    | Some body =>
      match body props with
      | Return props' => (Return (VInstance fr cls props'), w)
      | Throw e => (Throw e, w)
      end
    | None => (Return filter, w)
    end
  | _, _ => (Throw TypeError, w)
  end.

(** [this.metadata = {}] when [this.metadata] is falsy. *)
Definition ensure_metadata (this : nat) : M unit := λ w,
  match requests w !! this with
  | Some (Request (Some _)) => (Return (), w)
  | Some (Request None) => set_metadata this ∅ w
  | None => (Throw TypeError, w)
  end.

(** [new C()] before the constructor body runs: a fresh instance. *)
Definition allocate : M nat := λ w,
  (Return (next_ref w),
   World (S (next_ref w)) (<[next_ref w := Request None]> (requests w))
         (functions w)).

(** [for (let x of l) body(x)] *)
Fixpoint for_each {A} (body : A → M unit) (l : list A) : M unit :=
  match l with
  | [] => mret ()
  | x :: l' => body x;; for_each body l'
  end.

(** [v?.name].  The name of a function or class is a property of the
    function object; a static member of a class called [name] is defined
    over it, so that on such a class the access runs the getter of the
    member, which returns a new object. *)
Definition get_name (v : value) : M value :=
  match v with
  | VFunction _ n => mret (VStr n)
  | VClass _ m =>
    match static_member "name" m with
    | Some d => r ← fresh; mret (VPlain r (definition_object d))
    | None => mret (VStr (class_name m))
    end
  | VPlain _ props | VInstance _ _ props => mret (obj_get "name" props)
  | _ => mret VUndefined
  end.

(** ** Objects.fromEntries (utilities/objects.js is not among the sources) *)

(** Modelled from the spec: the property key an entry key becomes in the
    plain object; a header Map only has string keys, other primitives are
    converted as JavaScript does and objects as an object literal is. *)
Definition to_property_key (v : value) : string :=
  match v with
  | VStr s => s
  | VNum n => pretty n
  | VBool true => "true"
  | VBool false => "false"
  | VNull => "null"
  | VUndefined => "undefined"
  | _ => "[object Object]"
  end.

Definition entries_to_object (es : list (value * value))
  : list (string * value) :=
  foldl (λ o e, obj_set (to_property_key e.1) e.2 o) [] es.

(** Modelled from the spec: Objects.fromEntries, which flattens a header Map
    to a plain key-value object (section 6). *)
Definition fromEntries (v : value) : M value :=
  match v with
  | VMap _ es => r ← fresh; mret (VPlain r (entries_to_object es))
  | _ => throw TypeError
  end.

(** ** The methods the three request classes share word for word *)

Module Builder.

(** [count(enabled)] *)
Definition count (this : nat) (enabled : value) : M nat :=
  (if is_undefined enabled then set_field this "count" (VBool true)
   else set_field this "count" (VBool (truthy enabled)));;
  mret this.

(** [this.metadata.headers.clear()], [.delete(k)] and [.set(k, v)] *)
Definition update_headers (this : nat)
    (f : list (value * value) → list (value * value)) : M unit :=
  h ← get_field this "headers";
  match h with
  | VMap r es => set_field this "headers" (VMap r (f es))
  | _ => throw TypeError
  end.

(** The body of the loop of [headers]. *)
Definition headers_entry (this : nat) (e : value * value) : M unit :=
  let '(k, v) := e in
  if negb (is_null k) && negb (is_undefined k) then
    if negb (String.eqb (typeof k) "string") then throw NonStringKey
    else if is_null v || is_undefined v then
      update_headers this (map_delete k)
    else
      update_headers this (map_set k v)
  else mret ().

(** What [for (let [k, v] of iterable)] runs over. *)
Definition iterable (dictionary : value) : list (value * value) :=
  match dictionary with
  | VMap _ es => es
  | _ => prod_map VStr id <$> default [] (own_entries dictionary)
  end.

(** [headers(dictionary)]; a call without argument has [dictionary]
    undefined. *)
Definition headers (this : nat) (dictionary : value) : M nat :=
  h ← get_field this "headers";
  (if negb (truthy h) then m ← new_map; set_field this "headers" m
   else mret ());;
  (if is_null dictionary then update_headers this (λ _, [])
   else if is_map dictionary || String.eqb (typeof dictionary) "object" then
     for_each (headers_entry this) (iterable dictionary)
   else throw InvalidDictionary);;
  mret this.

(** The first loop of [meta]: every key of [this.metadata] outside
    STANDARD_METADATA is deleted. *)
Definition clear_non_standard (STANDARD_METADATA : list string)
    (md : gmap string value) : gmap string value :=
  foldl (λ m k, if bool_decide (k ∈ STANDARD_METADATA) then m
                else delete k m)
        md (map_to_list md).*1.

(** [Object.assign(target, source)] *)
Definition assign (md : gmap string value) (es : list (string * value))
  : gmap string value :=
  foldl (λ m e, <[e.1 := e.2]> m) md es.

(** [meta(metadata)] *)
Definition meta (STANDARD_METADATA : list string) (this : nat)
    (metadata : value) : M nat :=
  if is_null metadata then
    md ← get_metadata this;
    set_metadata this (clear_non_standard STANDARD_METADATA md);;
    mret this
  else
    match own_entries metadata with
    | None => throw TypeError
    | Some es =>
      match List.find (λ k, bool_decide (k ∈ STANDARD_METADATA)) es.*1 with
      | Some k => throw (StandardMetadata k)
      | None =>
        md ← get_metadata this;
        set_metadata this (assign md es);;
        mret this
      end
    end.

(** [toJSON()]; [method] is the entry Delete and Put add to the clone. *)
Definition toJSON (method : option string) (this : nat)
  : M (gmap string value) :=
  metaClone ← get_metadata this;
  h ← get_field this "headers";
  metaClone ← (if truthy h then
                 o ← fromEntries h; mret (<["headers" := o]> metaClone)
               else mret metaClone);
  m ← get_field this "model";
  n ← get_name m;
  let metaClone := <["model" := n]> metaClone in
  mret (match method with
        | Some name => <["method" := VStr name]> metaClone
        | None => metaClone
        end).

End Builder.

(** ** DeleteRequest (src/requests/delete-request.js) *)

Module DeleteRequest.

Definition STANDARD_METADATA : list string := ["all"; "where"; "from"].

Definition method : string := "delete".

Definition defaults : gmap string value :=
  <["all" := VBool false]> (<["where" := VNull]> (<["from" := VNull]>
  (<["count" := VBool false]> (<["model" := VNull]>
  (<["headers" := VNull]> ∅))))).

Definition constructor : M nat :=
  this ← allocate;
  set_metadata this defaults;;
  mret this.

Definition from (this : nat) (name : value) : M nat :=
  if negb (is_null name) && negb (String.eqb (typeof name) "string") then
    throw InvalidName
  else
    set_field this "from" name;;
    mret this.

Definition model (this : nat) (modelType : value) : M nat :=
  if negb (is_null modelType) && negb (ModelUtility.isValidType modelType)
  then throw InvalidModelType
  else
    set_field this "model" modelType;;
    (if negb (is_null modelType) then
       from this (ModelUtility.resource modelType method);; mret ()
     else mret ());;
    mret this.

Definition count := Builder.count.

(** [all(enabled)]; [args] is the argument list, for
    [arguments.length]. *)
Definition all (this : nat) (args : list value) : M nat :=
  let enabled := match args with [] => VBool true | e :: _ => e end in
  set_field this "all" (VBool (truthy enabled));;
  mret this.

Definition where_ (this : nat) (conditions : value) : M nat :=
  if is_null conditions then
    set_field this "where" VNull;;
    mret this
  else if is_filter conditions then
    set_field this "where" conditions;;
    mret this
  else if String.eqb (typeof conditions) "function" then
    f ← new_filter;
    set_field this "where" f;;
    f ← get_field this "where";
    f' ← call_with_filter conditions f;
    set_field this "where" f';;
    mret this
  else throw InvalidConditions.

Definition clear (this : nat) : M nat :=
  ensure_metadata this;;
  set_field this "all" (VBool false);;
  set_field this "where" VNull;;
  set_field this "from" VNull;;
  set_field this "headers" VNull;;
  mret this.

Definition headers := Builder.headers.

Definition meta := Builder.meta STANDARD_METADATA.

Definition toJSON := Builder.toJSON (Some method).

End DeleteRequest.

(** ** PatchRequest (src/requests/patch-request.js) *)

Module PatchRequest.

Definition STANDARD_METADATA : list string := ["template"; "where"; "to"].

Definition method : string := "patch".

Definition defaults : gmap string value :=
  <["all" := VBool false]> (<["template" := VNull]> (<["where" := VNull]>
  (<["to" := VNull]> (<["count" := VBool false]> (<["model" := VNull]>
  (<["headers" := VNull]> ∅)))))).

Definition template (this : nat) (template : value) : M nat :=
  let ttype := typeof template in
  if negb (String.eqb ttype "object") || isArray template then
    throw InvalidTemplate
  else
    (if negb (truthy template) then set_field this "template" VNull
     else set_field this "template" template);;
    mret this.

Definition constructor (template_arg : value) : M nat :=
  this ← allocate;
  set_metadata this defaults;;
  (if truthy template_arg then template this template_arg;; mret ()
   else mret ());;
  mret this.

Definition to (this : nat) (name : value) : M nat :=
  if is_null name then
    set_field this "to" VNull;;
    mret this
  else if negb (String.eqb (typeof name) "string") then
    throw InvalidName
  else
    set_field this "to" name;;
    mret this.

Definition model (this : nat) (modelType : value) : M nat :=
  if negb (is_null modelType) && negb (ModelUtility.isValidType modelType)
  then throw InvalidModelType
  else
    set_field this "model" modelType;;
    (if truthy modelType then
       to this (ModelUtility.resource modelType method);; mret ()
     else mret ());;
    mret this.

Definition count := Builder.count.

Definition all (this : nat) (args : list value) : M nat :=
  let enabled := match args with [] => VBool true | e :: _ => e end in
  set_field this "all" (VBool (truthy enabled));;
  mret this.

Definition where_ (this : nat) (conditions : value) : M nat :=
  if is_null conditions then
    set_field this "where" VNull;;
    mret this
  else if is_filter conditions then
    set_field this "where" conditions;;
    mret this
  else if String.eqb (typeof conditions) "function" then
    f ← new_filter;
    set_field this "where" f;;
    f ← get_field this "where";
    f' ← call_with_filter conditions f;
    set_field this "where" f';;
    mret this
  else throw InvalidConditions.

Definition clear (this : nat) : M nat :=
  ensure_metadata this;;
  set_field this "template" VNull;;
  set_field this "where" VNull;;
  set_field this "to" VNull;;
  set_field this "headers" VNull;;
  mret this.

Definition headers := Builder.headers.

Definition meta := Builder.meta STANDARD_METADATA.

Definition toJSON := Builder.toJSON None.

End PatchRequest.

(** ** PutRequest (the third class of src/requests/patch-request.js) *)

Module PutRequest.

Definition STANDARD_METADATA : list string :=
  ["pk"; "objects"; "to"; "count"; "model"].

Definition method : string := "put".

(** [primaryKeys.length === 1 && primaryKeys[0] === null] *)
Definition single_null (args : list value) : bool :=
  match args with [VNull] => true | _ => false end.

(** The body of the loop of [pk]. *)
Definition pk_entry (this : nat) (k : value) : M unit :=
  if negb (is_null k) && negb (String.eqb (typeof k) "string") then
    throw InvalidPrimaryKeys
  else if truthy k then
    p ← get_field this "pk";
    match p with
    | VArray r items =>
      if negb (includes k items) then
        set_field this "pk" (VArray r (items ++ [k]))
      else mret ()
    | _ => throw TypeError
    end
  else mret ().

Definition pk (this : nat) (primaryKeys : list value) : M nat :=
  p ← get_field this "pk";
  (if negb (isArray p) then a ← new_array; set_field this "pk" a
   else mret ());;
  (if single_null primaryKeys then a ← new_array; set_field this "pk" a
   else for_each (pk_entry this) (flat_one primaryKeys));;
  mret this.

(** The body of the loop of [objects]. *)
Definition objects_entry (this : nat) (o : value) : M unit :=
  let ttype := typeof o in
  if negb (is_null o) && negb (String.eqb ttype "undefined") then
    if negb (String.eqb ttype "object") then throw InvalidObjects
    else
      a ← get_field this "objects";
      match a with
      | VArray r items =>
        if negb (includes o items) then
          set_field this "objects" (VArray r (items ++ [o]))
        else mret ()
      | _ => throw TypeError
      end
  else mret ().

Definition objects (this : nat) (objects : list value) : M nat :=
  a ← get_field this "objects";
  (if negb (isArray a) then a ← new_array; set_field this "objects" a
   else mret ());;
  (if single_null objects then
     a ← get_field this "objects";
     match a with
     | VArray r _ => set_field this "objects" (VArray r [])
     | _ => throw TypeError
     end
   else for_each (objects_entry this) (flat_infinity objects));;
  mret this.

(** [new PutRequest(pk, ...objects)] *)
Definition constructor (pk_arg : value) (objects_arg : list value) : M nat :=
  this ← allocate;
  pk0 ← new_array;
  objects0 ← new_array;
  set_metadata this
    (<["pk" := pk0]> (<["objects" := objects0]> (<["to" := VNull]>
     (<["count" := VBool false]> (<["model" := VNull]>
     (<["headers" := VNull]> ∅))))));;
  match pk_arg with
  | VArray _ items => pk this items;; mret ()
  | _ => mret ()
  end;;
  objects this objects_arg;;
  mret this.

Definition to (this : nat) (name : value) : M nat :=
  if negb (is_null name) && negb (String.eqb (typeof name) "string") then
    throw InvalidName
  else
    set_field this "to" name;;
    mret this.

Definition model (this : nat) (modelType : value) : M nat :=
  if negb (is_null modelType) && negb (ModelUtility.isValidType modelType)
  then throw InvalidModelType
  else
    set_field this "model" modelType;;
    (if truthy modelType then
       r ← to this (ModelUtility.resource modelType method);
       r ← pk r [VNull];
       pk r (ModelUtility.pk modelType);;
       mret ()
     else mret ());;
    mret this.

Definition count := Builder.count.

Definition clear (this : nat) : M nat :=
  ensure_metadata this;;
  pk0 ← new_array;
  set_field this "pk" pk0;;
  objects0 ← new_array;
  set_field this "objects" objects0;;
  set_field this "to" VNull;;
  set_field this "headers" VNull;;
  mret this.

Definition headers := Builder.headers.

Definition meta := Builder.meta STANDARD_METADATA.

Definition toJSON := Builder.toJSON (Some method).

End PutRequest.

(** * Specification vocabulary *)

(** The metadata object of a request in a store. *)
Definition metadata_of (w : world) (this : nat) : option (gmap string value) :=
  r ← requests w !! this; metadata r.

(** The store in which the metadata of [this] is [md]. *)
Definition with_metadata (w : world) (this : nat) (md : gmap string value)
  : world :=
  World (next_ref w) (<[this := Request (Some md)]> (requests w)) (functions w).

(** The store after one allocation. *)
Definition bump (w : world) : world :=
  World (S (next_ref w)) (requests w) (functions w).


(** The store a program starts from: no request yet.  References below 100
    are left to the objects the caller passes in. *)
Definition empty_world : world := World 100 ∅ ∅.

(** The model class of the test suite of PatchRequest (describe '#model'). *)
Definition MyModel : ModelType := {|
  class_name := "MyModel";
  class_plural := "MyModels";
  stashku := Some {| resource := Some "resource-abc";
                     name := Some "name-abc";
                     slug := Some "slug-abc";
                     plural_name := Some "plural.name-abc";
                     plural_slug := Some "plural.slug-abc" |};
  properties := []
|}.

(** BaseThemeModel, the fourth part of src/requests/patch-request.js. *)
Definition BaseThemeModel : ModelType := {|
  class_name := "BaseThemeModel";
  class_plural := "BaseThemeModels";
  stashku := Some {| resource := Some "themes";
                     name := Some "Theme-API";
                     slug := Some "theme-api";
                     plural_name := Some "Themes-API";
                     plural_slug := Some "themes-api" |};
  properties :=
    [("HexCode", {| target := "Hex_Code"; type := "String"; pk := false |});
     ("ID", {| target := "ID"; type := "Number"; pk := true |});
     ("Name", {| target := "Name"; type := "String"; pk := false |})]
|}.

(** Every way to call a builder method of each class. *)
Inductive delete_call :=
| DModel (modelType : value)
| DCount (enabled : value)
| DAll (args : list value)
| DWhere (conditions : value)
| DFrom (name : value)
| DClear
| DHeaders (dictionary : value)
| DMeta (metadata : value).

Definition delete_invoke (this : nat) (c : delete_call) : M nat :=
  match c with
  | DModel v => DeleteRequest.model this v
  | DCount v => DeleteRequest.count this v
  | DAll args => DeleteRequest.all this args
  | DWhere v => DeleteRequest.where_ this v
  | DFrom v => DeleteRequest.from this v
  | DClear => DeleteRequest.clear this
  | DHeaders v => DeleteRequest.headers this v
  | DMeta v => DeleteRequest.meta this v
  end.

Inductive patch_call :=
| PModel (modelType : value)
| PCount (enabled : value)
| PAll (args : list value)
| PTemplate (template : value)
| PWhere (conditions : value)
| PTo (name : value)
| PClear
| PHeaders (dictionary : value)
| PMeta (metadata : value).

Definition patch_invoke (this : nat) (c : patch_call) : M nat :=
  match c with
  | PModel v => PatchRequest.model this v
  | PCount v => PatchRequest.count this v
  | PAll args => PatchRequest.all this args
  | PTemplate v => PatchRequest.template this v
  | PWhere v => PatchRequest.where_ this v
  | PTo v => PatchRequest.to this v
  | PClear => PatchRequest.clear this
  | PHeaders v => PatchRequest.headers this v
  | PMeta v => PatchRequest.meta this v
  end.

Inductive put_call :=
| UModel (modelType : value)
| UCount (enabled : value)
| UPk (primaryKeys : list value)
| UObjects (objects : list value)
| UTo (name : value)
| UClear
| UHeaders (dictionary : value)
| UMeta (metadata : value).

Definition put_invoke (this : nat) (c : put_call) : M nat :=
  match c with
  | UModel v => PutRequest.model this v
  | UCount v => PutRequest.count this v
  | UPk args => PutRequest.pk this args
  | UObjects args => PutRequest.objects this args
  | UTo v => PutRequest.to this v
  | UClear => PutRequest.clear this
  | UHeaders v => PutRequest.headers this v
  | UMeta v => PutRequest.meta this v
  end.

(** Every normal return of [c] satisfies [P]. *)
Definition returns_only {A} (P : A → Prop) (c : M A) : Prop :=
  ∀ w a w', c w = (Return a, w') → P a.


(** ** Vocabulary for headers *)

(** null or undefined *)
Definition nullish (v : value) : bool := is_null v || is_undefined v.

(** A key [headers] accepts: skipped when null or undefined, used when a
    string. *)
Definition key_ok (e : value * value) : bool :=
  nullish e.1 || String.eqb (typeof e.1) "string".

(** What one accepted entry of a dictionary does to the header entries. *)
Definition apply_entry (es : list (value * value)) (e : value * value)
  : list (value * value) :=
  if nullish e.1 then es
  else if nullish e.2 then map_delete e.1 es
  else map_set e.1 e.2 es.

Definition merge_entries (es l : list (value * value))
  : list (value * value) :=
  foldl apply_entry es l.

(** A loop [for (let x of l)] whose body either refuses [x] with [err] or
    updates a state: the state at the end and whether an element was
    refused. *)
Fixpoint run_loop {A S} (ok : A → bool) (step : S → A → S) (err : error)
    (s : S) (l : list A) : outcome unit * S :=
  match l with
  | [] => (Return (), s)
  | x :: l' =>
    if ok x then run_loop ok step err (step s x) l' else (Throw err, s)
  end.

(** The loop of [headers] as a function of the header entries. *)
Definition run_entries : list (value * value) → list (value * value)
    → outcome unit * list (value * value) :=
  run_loop key_ok apply_entry NonStringKey.

(** The value a dictionary gives last for the string key [k], if any. *)
Fixpoint last_binding (k : string) (l : list (value * value)) : option value :=
  match l with
  | [] => None
  | (k', v) :: l' =>
    match last_binding k l' with
    | Some x => Some x
    | None => if strict_eq (VStr k) k' then Some v else None
    end
  end.

(** [this.metadata.headers] is falsy or a Map, as the constructors and
    [headers] itself leave it. *)
Definition headers_ready (md : gmap string value) : bool :=
  match default VUndefined (md !! "headers") with
  | VMap _ _ => true
  | v => negb (truthy v)
  end.

(** The header Map after the first statement of [headers]: its reference,
    its entries, and the store (one allocation later when the Map is new). *)
Definition ensure_headers (w : world) (md : gmap string value)
  : world * nat * list (value * value) :=
  match default VUndefined (md !! "headers") with
  | VMap r es => (w, r, es)
  | _ => (bump w, next_ref w, [])
  end.

(** The entries of the header Map of a metadata object. *)
Definition header_entries (md : gmap string value) : list (value * value) :=
  match md !! "headers" with
  | Some (VMap _ es) => es
  | _ => []
  end.


(** ** Vocabulary for pk and objects *)

(** An element [objects] accepts: skipped when null or undefined, kept when
    an object. *)
Definition object_ok (o : value) : bool :=
  nullish o || String.eqb (typeof o) "object".

(** What one accepted element does to [metadata.objects]. *)
Definition push_object (items : list value) (o : value) : list value :=
  if nullish o then items
  else if includes o items then items
  else items ++ [o].

(** An element [pk] accepts: null or a string. *)
Definition pk_ok (k : value) : bool :=
  is_null k || String.eqb (typeof k) "string".

(** What one accepted element does to [metadata.pk]. *)
Definition push_key (items : list value) (k : value) : list value :=
  if truthy k && negb (includes k items) then items ++ [k] else items.

(** The array in a field after the first statement of [pk] and of
    [objects]: its reference, its items, and the store (one allocation later
    when the array is new). *)
Definition ensure_array (field : string) (w : world) (md : gmap string value)
  : world * nat * list value :=
  match default VUndefined (md !! field) with
  | VArray r items => (w, r, items)
  | _ => (bump w, next_ref w, [])
  end.

(** The references of the objects in a list. *)
Definition refs (l : list value) : list nat := omap ref_of l.

(** How many elements of [items] are [=== o]. *)
Definition occurrences (o : value) (items : list value) : nat :=
  length (List.filter (strict_eq o) items).

(** The items of an array value. *)
Definition array_items (v : value) : option (list value) :=
  match v with VArray _ items => Some items | _ => None end.

(** A model class as a class declaration gives it: property names are
    distinct and not empty. *)
Definition model_wf (m : ModelType) : Prop :=
  NoDup (properties m).*1 ∧ "" ∉ (properties m).*1.


(** The items of the array a field of the metadata holds (none when the
    field holds no array). *)
Definition field_items (field : string) (md : gmap string value)
  : list value :=
  default [] (array_items (default VUndefined (md !! field))).

(** A DeleteRequest, a PatchRequest and a PutRequest as their constructors
    leave them, each alone in its store, at reference 100. *)
Definition delete_world : world := (DeleteRequest.constructor empty_world).2.
Definition patch_world : world :=
  (PatchRequest.constructor VUndefined empty_world).2.
Definition put_world : world :=
  (PutRequest.constructor VUndefined [] empty_world).2.


(** A callback as the test suite passes one to [where]:
    [f => f.and('a', Filter.OP.CONTAINS, 'z')], at reference 7. *)
Definition sample_tree : value :=
  VPlain 8 [("logic", VStr "and");
            ("filters",
             VArray 9 [VPlain 10 [("property", VStr "a");
                                  ("op", VStr "contains");
                                  ("value", VStr "z")]])].

Definition sample_callback : callback :=
  λ props, Return (obj_set "tree" sample_tree props).

Definition callback_world : world :=
  World (next_ref delete_world) (requests delete_world) {[ 7 := sample_callback ]}.


(** The metadata of [put_world]: the arrays of pk and objects are the
    objects 101 and 102. *)
Definition put_defaults : gmap string value :=
  <["pk" := VArray 101 []]> (<["objects" := VArray 102 []]>
  (<["to" := VNull]> (<["count" := VBool false]> (<["model" := VNull]>
  (<["headers" := VNull]> ∅))))).


(** A PatchRequest after [headers({hello: 'world'})] and [model(MyModel)]. *)
Definition bound_world : world :=
  ((PatchRequest.headers 100 (VPlain 1 [("hello", VStr "world")]);;
    PatchRequest.model 100 (VClass 2 MyModel)) patch_world).2.

Definition bound_metadata : gmap string value :=
  <["model" := VClass 2 MyModel]> (<["to" := VStr "resource-abc"]>
  (<["headers" := VMap 101 [(VStr "hello", VStr "world")]]>
   PatchRequest.defaults)).

(** ** Vocabulary for toJSON *)

(** The order in which JavaScript lists own property keys: the array indices
    first, ascending, then the other keys. *)
Fixpoint property_order (ks : list string) : bool :=
  match ks with
  | [] => true
  | k :: ks' =>
    match array_index k with
    | Some i => forallb (index_before i) ks'
    | None => forallb (λ k', bool_decide (array_index k' = None)) ks'
    end && property_order ks'
  end.

Arguments property_order : simpl never.

(** A model class with a property called name:
    [class Person { static get name() { return { target: 'Name', type:
    'String' }; } static get $stashku() { return { resource: 'people' };
    } }]. *)
Definition Person : ModelType := {|
  class_name := "Person";
  class_plural := "People";
  stashku := Some {| resource := Some "people"; name := None; slug := None;
                     plural_name := None; plural_slug := None |};
  properties := [("name", {| target := "Name"; type := "String"; pk := false |})]
|}.

(** A PatchRequest after [headers(new Map([['b', 1], ['1', 2], ['a', 3],
    ['0', 4]]))]. *)
Definition indexed_world : world :=
  (PatchRequest.headers 100
     (VMap 1 [(VStr "b", VNum 1); (VStr "1", VNum 2); (VStr "a", VNum 3);
              (VStr "0", VNum 4)]) patch_world).2.

(** * Reasoning about runs *)

Lemma world_normal w this md :
  metadata_of w this = Some md → w = with_metadata w this md.
Proof.
  unfold metadata_of, with_metadata. destruct w as [n rs fs]; simpl.
  destruct (rs !! this) as [[o]|] eqn:E; simpl; [|done].
  intros ->. by rewrite insert_id.
Qed.

Lemma metadata_of_with w this md :
  metadata_of (with_metadata w this md) this = Some md.
Proof. unfold metadata_of, with_metadata; simpl. by rewrite lookup_insert_eq. Qed.

Lemma with_with w this md md' :
  with_metadata (with_metadata w this md) this md' = with_metadata w this md'.
Proof. unfold with_metadata; simpl. by rewrite insert_insert_eq. Qed.

Lemma run_bind {A B} (c : M A) (k : A → M B) w :
  (c ≫= k) w = match c w with
               | (Return a, w') => k a w'
               | (Throw e, w') => (Throw e, w')
               end.
Proof. reflexivity. Qed.

Lemma run_ret {A} (a : A) w : (mret a : M A) w = (Return a, w).
Proof. reflexivity. Qed.

Lemma run_throw {A} e w : (throw e : M A) w = (Throw e, w).
Proof. reflexivity. Qed.

Lemma get_metadata_with w this md :
  get_metadata this (with_metadata w this md)
  = (Return md, with_metadata w this md).
Proof. unfold get_metadata, with_metadata; simpl. by rewrite lookup_insert_eq. Qed.

Lemma set_metadata_with w this md md' :
  set_metadata this md' (with_metadata w this md)
  = (Return (), with_metadata w this md').
Proof. unfold set_metadata. simpl. by rewrite insert_insert_eq. Qed.

Lemma get_field_with w this md k :
  get_field this k (with_metadata w this md)
  = (Return (default VUndefined (md !! k)), with_metadata w this md).
Proof. unfold get_field. by rewrite run_bind, get_metadata_with. Qed.

Lemma set_field_with w this md k v :
  set_field this k v (with_metadata w this md)
  = (Return (), with_metadata w this (<[k := v]> md)).
Proof.
  unfold set_field. by rewrite run_bind, get_metadata_with, set_metadata_with.
Qed.

Lemma fresh_with w this md :
  fresh (with_metadata w this md)
  = (Return (next_ref w), with_metadata (bump w) this md).
Proof. reflexivity. Qed.

Lemma ensure_metadata_with w this md :
  ensure_metadata this (with_metadata w this md)
  = (Return (), with_metadata w this md).
Proof.
  unfold ensure_metadata, with_metadata; simpl. by rewrite lookup_insert_eq.
Qed.

(** One step of a run from a store in normal form. *)
Ltac step :=
  first
    [ rewrite run_bind
    | rewrite run_ret
    | rewrite run_throw
    | rewrite get_field_with
    | rewrite set_field_with
    | rewrite get_metadata_with
    | rewrite set_metadata_with
    | rewrite ensure_metadata_with
    | rewrite fresh_with ];
  cbv beta iota.

Ltac run := repeat step.

(** ** Fluent returns *)

Lemma returns_only_ret {A} (P : A → Prop) a : P a → returns_only P (mret a).
Proof. intros HP w a' w' [= <- _]. exact HP. Qed.

Lemma returns_only_throw {A} (P : A → Prop) e : returns_only P (throw e).
Proof. intros w a w' [=]. Qed.

Lemma returns_only_bind {A B} (P : B → Prop) (c : M A) (k : A → M B) :
  (∀ a, returns_only P (k a)) → returns_only P (c ≫= k).
Proof.
  intros Hk w b w'. rewrite run_bind.
  destruct (c w) as [[a|e] w1]; [apply Hk | intros [=]].
Qed.

(** Methods are conditionals and matches over sequences that end in
    [return this]. *)
Ltac fluent :=
  repeat first
    [ apply returns_only_throw
    | apply returns_only_ret; reflexivity
    | apply returns_only_bind; intros
    | progress cbv zeta
    | match goal with
      | |- returns_only _ (if ?b then _ else _) => destruct b
      | |- returns_only _ (match ?x with _ => _ end) => destruct x
      end ].

Lemma delete_invoke_fluent this c : returns_only (eq this) (delete_invoke this c).
Proof.
  destruct c; simpl;
    unfold DeleteRequest.model, DeleteRequest.count, Builder.count,
      DeleteRequest.all, DeleteRequest.where_, DeleteRequest.from,
      DeleteRequest.clear, DeleteRequest.headers, Builder.headers,
      DeleteRequest.meta, Builder.meta;
    fluent.
Qed.

Lemma patch_invoke_fluent this c : returns_only (eq this) (patch_invoke this c).
Proof.
  destruct c; simpl;
    unfold PatchRequest.model, PatchRequest.count, Builder.count,
      PatchRequest.all, PatchRequest.template, PatchRequest.where_,
      PatchRequest.to, PatchRequest.clear, PatchRequest.headers,
      Builder.headers, PatchRequest.meta, Builder.meta;
    fluent.
Qed.

Lemma put_invoke_fluent this c : returns_only (eq this) (put_invoke this c).
Proof.
  destruct c; simpl;
    unfold PutRequest.model, PutRequest.count, Builder.count, PutRequest.pk,
      PutRequest.objects, PutRequest.to, PutRequest.clear, PutRequest.headers,
      Builder.headers, PutRequest.meta, Builder.meta;
    fluent.
Qed.

(** ** The where setters *)

Lemma PatchRequest_where_eq : PatchRequest.where_ = DeleteRequest.where_.
Proof. reflexivity. Qed.

Lemma where_null w this md :
  DeleteRequest.where_ this VNull (with_metadata w this md)
  = (Return this, with_metadata w this (<["where" := VNull]> md)).
Proof. unfold DeleteRequest.where_; simpl. by run. Qed.

Lemma where_filter w this md f :
  is_filter f = true →
  DeleteRequest.where_ this f (with_metadata w this md)
  = (Return this, with_metadata w this (<["where" := f]> md)).
Proof.
  intros Hf. unfold DeleteRequest.where_. rewrite Hf.
  destruct f; try discriminate; simpl. by run.
Qed.

Lemma where_callback w this md r n body :
  functions w !! r = Some body →
  DeleteRequest.where_ this (VFunction r n) (with_metadata w this md)
  = match body [("tree", VNull)] with
    | Return props' =>
      (Return this,
       with_metadata (bump w) this
         (<["where" := VInstance (next_ref w) "Filter" props']> md))
    | Throw e =>
      (Throw e,
       with_metadata (bump w) this
         (<["where" := VInstance (next_ref w) "Filter" [("tree", VNull)]]> md))
    end.
Proof.
  intros Hb. unfold DeleteRequest.where_, new_filter; simpl. run.
  rewrite lookup_insert_eq; simpl. unfold call_with_filter; simpl.
  rewrite Hb. destruct (body _); [|done]. run. by rewrite insert_insert_eq.
Qed.

Lemma where_other w this v :
  is_null v = false → is_filter v = false → typeof v ≠ "function" →
  DeleteRequest.where_ this v w = (Throw InvalidConditions, w).
Proof.
  intros Hn Hf Ht. unfold DeleteRequest.where_. rewrite Hn, Hf.
  destruct (String.eqb_spec (typeof v) "function"); done.
Qed.

(** ** meta *)

Lemma lookup_delete_keys (S : list string) (keys : list string)
    (m : gmap string value) k :
  foldl (λ m k, if bool_decide (k ∈ S) then m else delete k m) m keys !! k
  = if bool_decide (k ∈ keys ∧ k ∉ S) then None else m !! k.
Proof.
  revert m. induction keys as [|k' keys IH]; intros m; simpl; [done|].
  rewrite IH. destruct (bool_decide (k' ∈ S)) eqn:HS.
  - apply bool_decide_eq_true in HS.
    rewrite (bool_decide_ext (k ∈ keys ∧ k ∉ S) (k ∈ k' :: keys ∧ k ∉ S));
      [done | rewrite elem_of_cons; intuition congruence].
  - apply bool_decide_eq_false in HS. destruct (decide (k = k')) as [E|Hne].
    + rewrite E, lookup_delete_eq.
      rewrite (bool_decide_eq_true_2 (k' ∈ k' :: keys ∧ k' ∉ S))
        by (split; [left | done]).
      clear IH. by case_bool_decide.
    + rewrite lookup_delete_ne by done.
      rewrite (bool_decide_ext (k ∈ keys ∧ k ∉ S) (k ∈ k' :: keys ∧ k ∉ S));
        [done | rewrite elem_of_cons; intuition congruence].
Qed.

Lemma lookup_clear_non_standard S (md : gmap string value) k :
  Builder.clear_non_standard S md !! k
  = if bool_decide (k ∈ S) then md !! k else None.
Proof.
  unfold Builder.clear_non_standard. rewrite lookup_delete_keys.
  destruct (bool_decide (k ∈ S)) eqn:HS.
  - apply bool_decide_eq_true in HS.
    rewrite bool_decide_eq_false_2; [done | tauto].
  - apply bool_decide_eq_false in HS.
    case_bool_decide as Hk; [done|].
    destruct (md !! k) as [v|] eqn:E; [|done]. exfalso. apply Hk.
    split; [|done]. apply list_elem_of_fmap. exists (k, v).
    split; [done|]. by apply elem_of_map_to_list.
Qed.

Lemma meta_null S w this md :
  Builder.meta S this VNull (with_metadata w this md)
  = (Return this, with_metadata w this (Builder.clear_non_standard S md)).
Proof. unfold Builder.meta; simpl. by run. Qed.

Lemma meta_single S w this md r k v :
  Builder.meta S this (VPlain r [(k, v)]) (with_metadata w this md)
  = if bool_decide (k ∈ S) then
      (Throw (StandardMetadata k), with_metadata w this md)
    else (Return this, with_metadata w this (<[k := v]> md)).
Proof.
  unfold Builder.meta; simpl. case_bool_decide; [done|]. by run.
Qed.

(** ** Maps with string keys *)

Lemma strict_eq_str_l k x : strict_eq (VStr k) x = true ↔ x = VStr k.
Proof.
  unfold strict_eq. destruct x; simpl; try (split; [discriminate|intros [=]]).
  rewrite String.eqb_eq. split; [by intros -> | by intros [= ->]].
Qed.

Lemma strict_eq_str_r k x : strict_eq x (VStr k) = true ↔ x = VStr k.
Proof.
  unfold strict_eq. destruct x; simpl; try (split; [discriminate|intros [=]]).
  rewrite String.eqb_eq. split; [by intros -> | by intros [= ->]].
Qed.

(** Two keys equal to a third: a string key cannot tell them apart. *)
Lemma strict_eq_str_trans k a b :
  strict_eq a b = true → strict_eq (VStr k) a = strict_eq (VStr k) b.
Proof.
  intros Hab.
  destruct (strict_eq (VStr k) a) eqn:Ha.
  - apply strict_eq_str_l in Ha. subst a.
    apply strict_eq_str_l in Hab. subst b.
    symmetry. by apply strict_eq_str_l.
  - destruct (strict_eq (VStr k) b) eqn:Hb; [|done].
    apply strict_eq_str_l in Hb. subst b.
    apply strict_eq_str_r in Hab. subst a.
    by rewrite (proj2 (strict_eq_str_l k (VStr k)) eq_refl) in Ha.
Qed.

Lemma map_get_set k k2 v es :
  map_get (VStr k) (map_set k2 v es)
  = if strict_eq (VStr k) k2 then Some v else map_get (VStr k) es.
Proof.
  induction es as [|[k' v'] es IH]; simpl; [done|].
  destruct (strict_eq k2 k') eqn:E; simpl.
  - rewrite (strict_eq_str_trans k _ _ E). by destruct (strict_eq (VStr k) k').
  - rewrite IH. destruct (strict_eq (VStr k) k') eqn:E1; [|done].
    destruct (strict_eq (VStr k) k2) eqn:E2; [|done].
    apply strict_eq_str_l in E1, E2. subst.
    by rewrite (proj2 (strict_eq_str_l k (VStr k)) eq_refl) in E.
Qed.

Lemma map_get_delete k k2 es :
  map_get (VStr k) (map_delete k2 es)
  = if strict_eq (VStr k) k2 then None else map_get (VStr k) es.
Proof.
  induction es as [|[k' v'] es IH]; simpl; [by destruct (strict_eq _ _)|].
  destruct (strict_eq k2 k') eqn:E; simpl.
  - rewrite IH, (strict_eq_str_trans k _ _ E).
    by destruct (strict_eq (VStr k) k').
  - rewrite IH. destruct (strict_eq (VStr k) k') eqn:E1; [|done].
    destruct (strict_eq (VStr k) k2) eqn:E2; [|done].
    apply strict_eq_str_l in E1, E2. subst.
    by rewrite (proj2 (strict_eq_str_l k (VStr k)) eq_refl) in E.
Qed.

Lemma map_get_apply_entry k es e :
  map_get (VStr k) (apply_entry es e)
  = if strict_eq (VStr k) e.1 then
      (if nullish e.2 then None else Some e.2)
    else map_get (VStr k) es.
Proof.
  unfold apply_entry. destruct e as [k2 v]; simpl.
  destruct (nullish k2) eqn:Hk.
  - destruct (strict_eq (VStr k) k2) eqn:E; [|done].
    apply strict_eq_str_l in E. by subst.
  - destruct (nullish v); [apply map_get_delete | apply map_get_set].
Qed.

(** The header entries after a merge: a key a dictionary mentions holds the
    last value given for it, or is absent when that value is null or
    undefined; any other key is as before. *)
Lemma map_get_merge k l es :
  map_get (VStr k) (merge_entries es l)
  = match last_binding k l with
    | Some v => if nullish v then None else Some v
    | None => map_get (VStr k) es
    end.
Proof.
  unfold merge_entries. revert es.
  induction l as [|[k' v] l IH]; intros es; simpl; [done|].
  rewrite IH. destruct (last_binding k l); [done|].
  rewrite map_get_apply_entry; simpl. by destruct (strict_eq (VStr k) k').
Qed.

(** ** Loops *)

Lemma run_loop_ok {A S} (ok : A → bool) (step : S → A → S) err s l :
  forallb ok l = true → run_loop ok step err s l = (Return (), foldl step s l).
Proof.
  revert s. induction l as [|x l IH]; intros s; simpl; [done|].
  intros [Hx Hl]%andb_prop. rewrite Hx. by apply IH.
Qed.

Lemma run_loop_refused {A S} (ok : A → bool) (step : S → A → S) err s l :
  forallb ok l = false → (run_loop ok step err s l).1 = Throw err.
Proof.
  revert s. induction l as [|x l IH]; intros s; simpl; [done|].
  destruct (ok x); simpl; [apply IH | done].
Qed.

Section field_loop.
Context {A S : Type}.
Variables (this : nat) (field : string) (wrap : nat → S → value).
Variables (body : A → M unit) (ok : A → bool) (step : S → A → S).
Variable err : error.

(** The body updates the collection held in [field] in place, or refuses
    its argument. *)
Hypothesis body_run : ∀ w md r s x,
  md !! field = Some (wrap r s) →
  body x (with_metadata w this md)
  = if ok x then
      (Return (), with_metadata w this (<[field := wrap r (step s x)]> md))
    else (Throw err, with_metadata w this md).

Lemma for_each_field_run w l : ∀ md r s,
  md !! field = Some (wrap r s) →
  for_each body l (with_metadata w this md)
  = ((run_loop ok step err s l).1,
     with_metadata w this
       (<[field := wrap r (run_loop ok step err s l).2]> md)).
Proof using body_run.
  induction l as [|x l IH]; intros md r s H; simpl.
  - by rewrite insert_id.
  - rewrite run_bind, (body_run _ _ _ _ _ H).
    destruct (ok x); simpl; [|by rewrite insert_id].
    rewrite (IH _ r (step s x)) by apply lookup_insert_eq.
    by rewrite insert_insert_eq.
Qed.
End field_loop.

(** ** headers *)

Lemma update_headers_run w this md r es f :
  md !! "headers" = Some (VMap r es) →
  Builder.update_headers this f (with_metadata w this md)
  = (Return (), with_metadata w this (<["headers" := VMap r (f es)]> md)).
Proof. intros H. unfold Builder.update_headers. run. rewrite H; simpl. by run. Qed.

Lemma headers_entry_run w this md r es e :
  md !! "headers" = Some (VMap r es) →
  Builder.headers_entry this e (with_metadata w this md)
  = if key_ok e then
      (Return (),
       with_metadata w this (<["headers" := VMap r (apply_entry es e)]> md))
    else (Throw NonStringKey, with_metadata w this md).
Proof.
  intros H. unfold Builder.headers_entry, key_ok, apply_entry, nullish.
  destruct e as [k v]; simpl.
  destruct (is_null k) eqn:Hn; simpl; [by rewrite insert_id|].
  destruct (is_undefined k) eqn:Hu; simpl; [by rewrite insert_id|].
  destruct (String.eqb (typeof k) "string"); simpl; [|done].
  destruct (is_null v || is_undefined v); by apply update_headers_run.
Qed.

Lemma for_each_headers_run w this l md r es :
  md !! "headers" = Some (VMap r es) →
  for_each (Builder.headers_entry this) l (with_metadata w this md)
  = ((run_entries es l).1,
     with_metadata w this (<["headers" := VMap r (run_entries es l).2]> md)).
Proof.
  apply (for_each_field_run this "headers" VMap). intros.
  by apply headers_entry_run.
Qed.

Lemma headers_rest_run w this md r es dictionary :
  md !! "headers" = Some (VMap r es) →
  ((if is_null dictionary then Builder.update_headers this (λ _, [])
    else if is_map dictionary || String.eqb (typeof dictionary) "object"
    then for_each (Builder.headers_entry this) (Builder.iterable dictionary)
    else throw InvalidDictionary) ≫= λ _ : (), mret this)
    (with_metadata w this md)
  = if is_null dictionary then
      (Return this, with_metadata w this (<["headers" := VMap r []]> md))
    else if is_map dictionary || String.eqb (typeof dictionary) "object" then
      let '(o, es') := run_entries es (Builder.iterable dictionary) in
      (match o with Return _ => Return this | Throw e => Throw e end,
       with_metadata w this (<["headers" := VMap r es']> md))
    else
      (Throw InvalidDictionary,
       with_metadata w this (<["headers" := VMap r es]> md)).
Proof.
  intros H. rewrite run_bind. destruct (is_null dictionary).
  - by rewrite (update_headers_run _ _ _ _ _ _ H).
  - destruct (is_map dictionary || String.eqb (typeof dictionary) "object").
    + rewrite (for_each_headers_run _ _ _ _ _ _ H).
      by destruct (run_entries es (Builder.iterable dictionary))
        as [[[]|e] es'].
    + rewrite run_throw. by rewrite insert_id.
Qed.

Lemma ensure_headers_map w md r es :
  md !! "headers" = Some (VMap r es) → ensure_headers w md = (w, r, es).
Proof. unfold ensure_headers. by intros ->. Qed.

Lemma ensure_headers_fresh w md :
  is_map (default VUndefined (md !! "headers")) = false →
  ensure_headers w md = (bump w, next_ref w, []).
Proof. unfold ensure_headers. by destruct (default _ _). Qed.

(** The whole of [headers], on a request whose header field is falsy or a
    Map. *)
Lemma headers_run w this md dictionary :
  metadata_of w this = Some md →
  headers_ready md = true →
  Builder.headers this dictionary w
  = let '(w1, r, es) := ensure_headers w md in
    if is_null dictionary then
      (Return this, with_metadata w1 this (<["headers" := VMap r []]> md))
    else if is_map dictionary || String.eqb (typeof dictionary) "object" then
      let '(o, es') := run_entries es (Builder.iterable dictionary) in
      (match o with Return _ => Return this | Throw e => Throw e end,
       with_metadata w1 this (<["headers" := VMap r es']> md))
    else
      (Throw InvalidDictionary,
       with_metadata w1 this (<["headers" := VMap r es]> md)).
Proof.
  intros Hmd Hready. rewrite (world_normal _ _ _ Hmd) at 1.
  unfold Builder.headers, headers_ready in *. run.
  destruct (is_map (default VUndefined (md !! "headers"))) eqn:Hm.
  - destruct (md !! "headers") as [[]|] eqn:Hh; try discriminate.
    rewrite (ensure_headers_map _ _ _ _ Hh); simpl. run.
    by apply headers_rest_run.
  - rewrite (ensure_headers_fresh _ _ Hm).
    assert (truthy (default VUndefined (md !! "headers")) = false) as ->.
    { destruct (default _ _); try done; by apply negb_true_iff. }
    simpl. unfold new_map. run.
    rewrite <- (run_bind _ (λ _ : (), mret this)).
    rewrite (headers_rest_run _ _ _ _ [] _ (lookup_insert_eq _ _ _)).
    destruct (run_entries [] (Builder.iterable dictionary)) as [o es'].
    by rewrite !insert_insert_eq.
Qed.

(** ** pk and objects *)

Lemma typeof_undefined v : String.eqb (typeof v) "undefined" = is_undefined v.
Proof. by destruct v. Qed.

Lemma objects_entry_run this w md r items o :
  md !! "objects" = Some (VArray r items) →
  PutRequest.objects_entry this o (with_metadata w this md)
  = if object_ok o then
      (Return (),
       with_metadata w this (<["objects" := VArray r (push_object items o)]> md))
    else (Throw InvalidObjects, with_metadata w this md).
Proof.
  intros H. unfold PutRequest.objects_entry, object_ok, push_object, nullish.
  cbv zeta. rewrite typeof_undefined.
  destruct (is_null o); simpl; [by rewrite insert_id|].
  destruct (is_undefined o); simpl; [by rewrite insert_id|].
  destruct (String.eqb (typeof o) "object"); simpl; [|done].
  run. rewrite H; simpl.
  destruct (includes o items); simpl; run; [by rewrite insert_id | done].
Qed.

Lemma pk_entry_run this w md r items k :
  md !! "pk" = Some (VArray r items) →
  PutRequest.pk_entry this k (with_metadata w this md)
  = if pk_ok k then
      (Return (),
       with_metadata w this (<["pk" := VArray r (push_key items k)]> md))
    else (Throw InvalidPrimaryKeys, with_metadata w this md).
Proof.
  intros H. unfold PutRequest.pk_entry, pk_ok, push_key.
  rewrite <- negb_orb.
  destruct (is_null k || String.eqb (typeof k) "string"); simpl; [|done].
  destruct (truthy k); simpl; [|by rewrite insert_id].
  run. rewrite H; simpl.
  destruct (includes k items); simpl; run; [by rewrite insert_id | done].
Qed.

Lemma ensure_array_some field w md r items :
  md !! field = Some (VArray r items) → ensure_array field w md = (w, r, items).
Proof. unfold ensure_array. by intros ->. Qed.

Lemma ensure_array_fresh field w md :
  isArray (default VUndefined (md !! field)) = false →
  ensure_array field w md = (bump w, next_ref w, []).
Proof. unfold ensure_array. by destruct (default _ _). Qed.

Lemma objects_rest_run this w md r items args :
  md !! "objects" = Some (VArray r items) →
  ((if PutRequest.single_null args then
      a ← get_field this "objects";
      match a with
      | VArray r _ => set_field this "objects" (VArray r [])
      | _ => throw TypeError
      end
    else for_each (PutRequest.objects_entry this) (flat_infinity args))
   ≫= λ _ : (), mret this) (with_metadata w this md)
  = if PutRequest.single_null args then
      (Return this, with_metadata w this (<["objects" := VArray r []]> md))
    else
      let '(o, items') :=
        run_loop object_ok push_object InvalidObjects items
                 (flat_infinity args) in
      (match o with Return _ => Return this | Throw e => Throw e end,
       with_metadata w this (<["objects" := VArray r items']> md)).
Proof.
  intros H. rewrite run_bind. destruct (PutRequest.single_null args).
  - run. rewrite H; simpl. by run.
  - rewrite (for_each_field_run this "objects" VArray _ object_ok push_object
               InvalidObjects) with (r := r) (s := items);
      [|intros; by apply objects_entry_run|done].
    by destruct (run_loop _ _ _ _ _) as [[[]|e] items'].
Qed.

(** The whole of [objects]. *)
Lemma objects_run this w md args :
  metadata_of w this = Some md →
  PutRequest.objects this args w
  = let '(w1, r, items) := ensure_array "objects" w md in
    if PutRequest.single_null args then
      (Return this, with_metadata w1 this (<["objects" := VArray r []]> md))
    else
      let '(o, items') :=
        run_loop object_ok push_object InvalidObjects items
                 (flat_infinity args) in
      (match o with Return _ => Return this | Throw e => Throw e end,
       with_metadata w1 this (<["objects" := VArray r items']> md)).
Proof.
  intros Hmd. rewrite (world_normal _ _ _ Hmd) at 1.
  unfold PutRequest.objects. run.
  destruct (isArray (default VUndefined (md !! "objects"))) eqn:Ha.
  - destruct (md !! "objects") as [[]|] eqn:Hh; try discriminate.
    rewrite (ensure_array_some _ _ _ _ _ Hh); simpl. run.
    rewrite <- (run_bind _ (λ _ : (), mret this)).
    by apply objects_rest_run.
  - rewrite (ensure_array_fresh _ _ _ Ha). simpl. unfold new_array. run.
    rewrite <- (run_bind _ (λ _ : (), mret this)).
    rewrite (objects_rest_run _ _ _ _ [] _ (lookup_insert_eq _ _ _)).
    destruct (PutRequest.single_null args); [by rewrite insert_insert_eq|].
    destruct (run_loop _ _ _ _ _) as [o items'].
    by rewrite insert_insert_eq.
Qed.

Lemma pk_rest_run this w md r items args :
  md !! "pk" = Some (VArray r items) →
  ((if PutRequest.single_null args then
      a ← new_array; set_field this "pk" a
    else for_each (PutRequest.pk_entry this) (flat_one args))
   ≫= λ _ : (), mret this) (with_metadata w this md)
  = if PutRequest.single_null args then
      (Return this,
       with_metadata (bump w) this (<["pk" := VArray (next_ref w) []]> md))
    else
      let '(o, items') :=
        run_loop pk_ok push_key InvalidPrimaryKeys items (flat_one args) in
      (match o with Return _ => Return this | Throw e => Throw e end,
       with_metadata w this (<["pk" := VArray r items']> md)).
Proof.
  intros H. rewrite run_bind. destruct (PutRequest.single_null args).
  - unfold new_array. by run.
  - rewrite (for_each_field_run this "pk" VArray _ pk_ok push_key
               InvalidPrimaryKeys) with (r := r) (s := items);
      [|intros; by apply pk_entry_run|done].
    by destruct (run_loop _ _ _ _ _) as [[[]|e] items'].
Qed.

(** The whole of [pk]. *)
Lemma pk_run this w md args :
  metadata_of w this = Some md →
  PutRequest.pk this args w
  = let '(w1, r, items) := ensure_array "pk" w md in
    if PutRequest.single_null args then
      (Return this,
       with_metadata (bump w1) this (<["pk" := VArray (next_ref w1) []]> md))
    else
      let '(o, items') :=
        run_loop pk_ok push_key InvalidPrimaryKeys items (flat_one args) in
      (match o with Return _ => Return this | Throw e => Throw e end,
       with_metadata w1 this (<["pk" := VArray r items']> md)).
Proof.
  intros Hmd. rewrite (world_normal _ _ _ Hmd) at 1.
  unfold PutRequest.pk. run.
  destruct (isArray (default VUndefined (md !! "pk"))) eqn:Ha.
  - destruct (md !! "pk") as [[]|] eqn:Hh; try discriminate.
    rewrite (ensure_array_some _ _ _ _ _ Hh); simpl. run.
    rewrite <- (run_bind _ (λ _ : (), mret this)).
    by apply pk_rest_run.
  - rewrite (ensure_array_fresh _ _ _ Ha). simpl. unfold new_array. run.
    rewrite <- (run_bind _ (λ _ : (), mret this)).
    rewrite (pk_rest_run _ _ _ _ [] _ (lookup_insert_eq _ _ _)).
    destruct (PutRequest.single_null args); [by rewrite insert_insert_eq|].
    destruct (run_loop _ _ _ _ _) as [o items'].
    by rewrite insert_insert_eq.
Qed.

(** ** Objects by reference *)

Lemma strict_eq_ref a b r :
  ref_of a = Some r → strict_eq a b = true ↔ ref_of b = Some r.
Proof.
  unfold strict_eq.
  destruct a; simpl; try discriminate; intros [= ->];
    destruct b; simpl; rewrite ?Nat.eqb_eq;
    (split; [try discriminate; by intros -> | try discriminate; by intros [= ->]]).
Qed.

Lemma object_has_ref o :
  nullish o = false → String.eqb (typeof o) "object" = true →
  is_Some (ref_of o).
Proof. destruct o; try discriminate; intros _ _; by eexists. Qed.

Lemma includes_ref o r items :
  ref_of o = Some r → includes o items = true ↔ r ∈ refs items.
Proof.
  intros Ho. unfold includes, refs. rewrite existsb_exists, list_elem_of_omap.
  split; intros (x & Hx & E); exists x.
  - split; [by apply list_elem_of_In | by apply (strict_eq_ref o)].
  - split; [by apply list_elem_of_In | by apply (strict_eq_ref o x r)].
Qed.

Lemma occurrences_absent o r items :
  ref_of o = Some r → r ∉ refs items → occurrences o items = 0.
Proof.
  intros Ho. unfold occurrences, refs.
  induction items as [|x items IH]; simpl; [done|]. intros Hr.
  destruct (strict_eq o x) eqn:E.
  - apply (strict_eq_ref o x r Ho) in E. rewrite E in Hr.
    exfalso. apply Hr. by left.
  - apply IH. destruct (ref_of x); [|done]. intros ?. apply Hr. by right.
Qed.

Lemma occurrences_once o r items :
  ref_of o = Some r → NoDup (refs items) → r ∈ refs items →
  occurrences o items = 1.
Proof.
  intros Ho. unfold occurrences, refs.
  induction items as [|x items IH]; simpl; [by intros _ ?%elem_of_nil|].
  intros Hnd Hr. destruct (strict_eq o x) eqn:E.
  - apply (strict_eq_ref o x r Ho) in E. rewrite E in Hnd.
    apply NoDup_cons in Hnd as [Hnot _]. simpl. f_equal.
    by apply (occurrences_absent o r).
  - destruct (ref_of x) as [r'|] eqn:Hx.
    + apply NoDup_cons in Hnd as [_ Hnd].
      apply elem_of_cons in Hr as [->|Hr]; [|by apply IH].
      assert (strict_eq o x = true) by by apply (strict_eq_ref o x r').
      congruence.
    + by apply IH.
Qed.

Lemma refs_push_object items o r :
  nullish o = false → ref_of o = Some r →
  refs (push_object items o)
  = if decide (r ∈ refs items) then refs items else refs items ++ [r].
Proof.
  intros Hn Ho. unfold push_object. rewrite Hn.
  destruct (includes o items) eqn:E.
  - apply (includes_ref o r items Ho) in E. by rewrite decide_True.
  - rewrite decide_False.
    + unfold refs. rewrite omap_app. simpl. by rewrite Ho.
    + intros Hin. apply (includes_ref o r items Ho) in Hin. congruence.
Qed.

(** After a loop of [objects] that refuses nothing: no reference is stored
    twice, what was stored stays, and every object supplied is stored. *)
Lemma push_objects_spec l : ∀ items,
  forallb object_ok l = true →
  NoDup (refs items) →
  NoDup (refs (foldl push_object items l))
  ∧ (∀ r, r ∈ refs items → r ∈ refs (foldl push_object items l))
  ∧ (∀ o, o ∈ l → nullish o = false →
       ∃ r, ref_of o = Some r ∧ r ∈ refs (foldl push_object items l)).
Proof.
  induction l as [|x l IH]; intros items Hok Hnd; simpl.
  - split; [done|]. split; [done|]. by intros o ?%elem_of_nil.
  - apply andb_prop in Hok as [Hx Hl].
    destruct (nullish x) eqn:Hn.
    + assert (push_object items x = items) as -> by (unfold push_object; by rewrite Hn).
      destruct (IH items Hl Hnd) as (H1 & H2 & H3).
      split; [done|]. split; [done|].
      intros o [->|Ho]%elem_of_cons Hno; [congruence | by apply H3].
    + unfold object_ok in Hx. rewrite Hn in Hx; simpl in Hx.
      destruct (object_has_ref x Hn Hx) as [r Hr].
      pose proof (refs_push_object items x r Hn Hr) as Hrefs.
      assert (NoDup (refs (push_object items x))) as Hnd'.
      { rewrite Hrefs. case_decide; [done|].
        apply NoDup_app. split; [done|]. split; [|apply NoDup_singleton].
        intros y Hy ->%list_elem_of_singleton. done. }
      assert (r ∈ refs (push_object items x)) as Hin.
      { rewrite Hrefs. case_decide; [done|]. apply elem_of_app. right. by left. }
      assert (∀ y, y ∈ refs items → y ∈ refs (push_object items x)) as Hmono.
      { intros y Hy. rewrite Hrefs. case_decide; [done|].
        apply elem_of_app. by left. }
      destruct (IH _ Hl Hnd') as (H1 & H2 & H3).
      split; [done|]. split; [by auto|].
      intros o [->|Ho]%elem_of_cons Hno; [|by apply H3].
      exists r. split; [done|]. by apply H2.
Qed.

(** ** Primary keys by name *)

Lemma includes_str n items :
  includes (VStr n) items = true ↔ VStr n ∈ items.
Proof.
  unfold includes. rewrite existsb_exists. split.
  - intros (x & Hx & ->%strict_eq_str_l). by apply list_elem_of_In.
  - intros H. exists (VStr n). split; [by apply list_elem_of_In|].
    by apply strict_eq_str_l.
Qed.

Lemma push_keys_names names : ∀ items,
  NoDup names → "" ∉ names → (∀ n, n ∈ names → VStr n ∉ items) →
  foldl push_key items (VStr <$> names) = items ++ (VStr <$> names).
Proof.
  induction names as [|n names IH]; intros items Hnd Hne Hfresh; simpl.
  - by rewrite app_nil_r.
  - apply NoDup_cons in Hnd as [Hn Hnd].
    assert (push_key items (VStr n) = items ++ [VStr n]) as ->.
    { unfold push_key. simpl.
      destruct (String.eqb_spec n "") as [->|_]; [exfalso; apply Hne; by left|].
      destruct (includes (VStr n) items) eqn:E; [|done].
      apply includes_str in E. exfalso. apply (Hfresh n); [by left | done]. }
    rewrite IH, <- app_assoc; [done | done | |].
    + intros ?. apply Hne. by right.
    + intros n' Hn' [Hin|Hin]%elem_of_app.
      * apply (Hfresh n'); [by right | done].
      * apply list_elem_of_singleton in Hin as [= ->]. done.
Qed.

Lemma flat_one_strings names : flat_one (VStr <$> names) = VStr <$> names.
Proof.
  unfold flat_one. induction names as [|n names IH]; simpl; [done|].
  by f_equal.
Qed.

Lemma pk_ok_strings names : forallb pk_ok (VStr <$> names) = true.
Proof. by induction names. Qed.

Lemma single_null_strings names :
  PutRequest.single_null (VStr <$> names) = false.
Proof. by destruct names as [|? [|? ?]]. Qed.

Lemma pk_names_wf m :
  model_wf m →
  NoDup (ModelUtility.pk_names m) ∧ "" ∉ ModelUtility.pk_names m.
Proof.
  intros [Hnd Hne]. unfold ModelUtility.pk_names.
  assert ((filter (λ p : string * PropertyDefinition, pk p.2 = true)
             (properties m)).*1 `sublist_of` (properties m).*1) as Hsub.
  { apply fmap_sublist, sublist_filter. }
  split; [by eapply sublist_NoDup|].
  intros Hin. apply Hne. by eapply elem_of_sublist.
Qed.

(** ** model, clear, toJSON *)

Lemma delete_model_run w this md c m :
  DeleteRequest.model this (VClass c m) (with_metadata w this md)
  = (Return this,
     with_metadata w this
       (<["from" := VStr (ModelUtility.resource_name m)]>
          (<["model" := VClass c m]> md))).
Proof. unfold DeleteRequest.model, DeleteRequest.from; simpl. by run. Qed.

Lemma patch_model_run w this md c m :
  PatchRequest.model this (VClass c m) (with_metadata w this md)
  = (Return this,
     with_metadata w this
       (<["to" := VStr (ModelUtility.resource_name m)]>
          (<["model" := VClass c m]> md))).
Proof. unfold PatchRequest.model, PatchRequest.to; simpl. by run. Qed.

Lemma put_model_run w this md c m :
  model_wf m →
  ∃ w' r,
    PutRequest.model this (VClass c m) (with_metadata w this md)
    = (Return this,
       with_metadata w' this
         (<["pk" := VArray r (VStr <$> ModelUtility.pk_names m)]>
            (<["to" := VStr (ModelUtility.resource_name m)]>
               (<["model" := VClass c m]> md)))).
Proof.
  intros Hwf. destruct (pk_names_wf m Hwf) as [Hnd Hne].
  unfold PutRequest.model, PutRequest.to; simpl. run.
  set (md1 := <["to" := _]> _).
  rewrite (pk_run this _ md1 [VNull]) by apply metadata_of_with.
  destruct (ensure_array "pk" (with_metadata w this md1) md1)
    as [[w1 r1] items1]; simpl.
  run.
  rewrite (pk_run this _ (<["pk" := VArray (next_ref w1) []]> md1))
    by apply metadata_of_with.
  rewrite (ensure_array_some "pk" _ _ (next_ref w1) [])
    by apply lookup_insert_eq.
  rewrite single_null_strings, flat_one_strings.
  rewrite run_loop_ok by apply pk_ok_strings.
  rewrite push_keys_names; [|done|done|by intros n _ ?%elem_of_nil].
  simpl. run. rewrite with_with, insert_insert_eq.
  by exists (bump w1), (next_ref w1).
Qed.

Lemma delete_clear_run w this md :
  DeleteRequest.clear this (with_metadata w this md)
  = (Return this,
     with_metadata w this
       (<["headers" := VNull]> (<["from" := VNull]> (<["where" := VNull]>
        (<["all" := VBool false]> md))))).
Proof. unfold DeleteRequest.clear. by run. Qed.

Lemma patch_clear_run w this md :
  PatchRequest.clear this (with_metadata w this md)
  = (Return this,
     with_metadata w this
       (<["headers" := VNull]> (<["to" := VNull]> (<["where" := VNull]>
        (<["template" := VNull]> md))))).
Proof. unfold PatchRequest.clear. by run. Qed.

Lemma put_clear_run w this md :
  PutRequest.clear this (with_metadata w this md)
  = (Return this,
     with_metadata (bump (bump w)) this
       (<["headers" := VNull]> (<["to" := VNull]>
        (<["objects" := VArray (S (next_ref w)) []]>
        (<["pk" := VArray (next_ref w) []]> md))))).
Proof. unfold PutRequest.clear, new_array. by run. Qed.

(** ** Property order *)

Lemma array_index_pretty k i : array_index k = Some i → k = pretty i.
Proof.
  unfold array_index. destruct (numeral 0 k) as [n|]; [|done].
  destruct (String.eqb_spec (pretty n) k) as [<-|]; simpl; [|done].
  destruct (n <=? 4294967294)%N; [|done]. by intros [= ->].
Qed.

Lemma has_own_false k o : k ∉ o.*1 → has_own k o = false.
Proof.
  induction o as [|[k' v'] o IH]; simpl; [done|]. intros Hk.
  destruct (String.eqb_spec k k') as [->|_]; simpl.
  - exfalso. apply Hk. by left.
  - apply IH. intros ?. apply Hk. by right.
Qed.

Lemma obj_insert_perm k v o : obj_insert k v o ≡ₚ (k, v) :: o.
Proof.
  induction o as [|[k' v'] o IH]; simpl; [done|].
  destruct (array_index k) as [i|].
  - destruct (index_before i k'); [done|]. rewrite IH. apply Permutation_swap.
  - rewrite IH. apply Permutation_swap.
Qed.

Lemma obj_insert_keys k v o : (obj_insert k v o).*1 ≡ₚ k :: o.*1.
Proof. by rewrite obj_insert_perm. Qed.

(** A new key leaves the keys that are no array index in the order they
    have, and is the last of them when it is none itself. *)
Lemma obj_insert_named k v o :
  filter (λ p, array_index p.1 = None) (obj_insert k v o)
  = filter (λ p, array_index p.1 = None) o
    ++ filter (λ p, array_index p.1 = None) [(k, v)].
Proof.
  induction o as [|[k' v'] o IH]; simpl; [done|].
  destruct (array_index k) as [i|] eqn:Hk.
  - assert (filter (λ p : string * value, array_index p.1 = None) [(k, v)]
            = []) as Hnil.
    { rewrite filter_cons_False; [done|]. simpl. by rewrite Hk. }
    rewrite Hnil in *. rewrite app_nil_r in *.
    destruct (index_before i k').
    + rewrite filter_cons_False; [done|]. simpl. by rewrite Hk.
    + rewrite !(filter_cons _ (k', v')). rewrite IH. done.
  - rewrite !(filter_cons _ (k', v')). rewrite IH.
    by destruct (decide (array_index (k', v').1 = None)).
Qed.

Lemma forallb_Forall {A} (f : A → bool) l :
  forallb f l = true ↔ Forall (λ x, f x = true) l.
Proof.
  induction l as [|x l IH]; simpl; [by split|].
  rewrite andb_true_iff, Forall_cons, IH. done.
Qed.

Lemma property_order_cons k ks :
  property_order (k :: ks) = true
  ↔ match array_index k with
    | Some i => Forall (λ k', index_before i k' = true) ks
    | None => Forall (λ k', array_index k' = None) ks
    end ∧ property_order ks = true.
Proof.
  change (property_order (k :: ks))
    with (match array_index k with
          | Some i => forallb (index_before i) ks
          | None => forallb (λ k', bool_decide (array_index k' = None)) ks
          end && property_order ks).
  rewrite andb_true_iff. destruct (array_index k).
  - by rewrite forallb_Forall.
  - rewrite forallb_Forall. split; intros [H ?]; (split; [|done]).
    + eapply Forall_impl; [exact H|]. intros ?. apply bool_decide_eq_true.
    + eapply Forall_impl; [exact H|]. intros ?. apply bool_decide_eq_true.
Qed.

(** A new property is put where the order of the keys is kept. *)
Lemma obj_insert_order k v o :
  k ∉ o.*1 → property_order o.*1 = true →
  property_order (obj_insert k v o).*1 = true.
Proof.
  induction o as [|[k' v'] o IH]; intros Hk Hord.
  - change (property_order [k] = true). apply property_order_cons.
    by destruct (array_index k).
  - rewrite fmap_cons in Hk, Hord. simpl in Hk.
    apply not_elem_of_cons in Hk as [Hne Hk].
    apply property_order_cons in Hord as [Hhead Hord]. simpl in Hhead.
    simpl. destruct (array_index k) as [i|] eqn:Hi.
    + destruct (index_before i k') eqn:Hb.
      * rewrite !fmap_cons. simpl. apply property_order_cons. rewrite Hi.
        split; [|apply property_order_cons; by split].
        apply Forall_cons. split; [done|].
        unfold index_before in Hb. destruct (array_index k') as [j|] eqn:Hj.
        -- apply N.ltb_lt in Hb. eapply Forall_impl; [exact Hhead|].
           intros k''. unfold index_before.
           destruct (array_index k''); [|done].
           intros ?%N.ltb_lt. apply N.ltb_lt. lia.
        -- eapply Forall_impl; [exact Hhead|]. intros k'' Hnone.
           unfold index_before. by rewrite Hnone.
      * rewrite fmap_cons. simpl. apply property_order_cons.
        split; [|by apply IH].
        unfold index_before in Hb. destruct (array_index k') as [j|] eqn:Hj;
          [|done].
        apply N.ltb_ge in Hb.
        assert (i ≠ j) as Hij.
        { intros ->. apply Hne.
          by rewrite (array_index_pretty _ _ Hi), (array_index_pretty _ _ Hj). }
        rewrite obj_insert_keys. apply Forall_cons. split; [|done].
        unfold index_before. rewrite Hi. apply N.ltb_lt. lia.
    + rewrite fmap_cons. simpl. apply property_order_cons.
      split; [|by apply IH].
      destruct (array_index k'); rewrite obj_insert_keys;
        apply Forall_cons; (split; [|done]).
      * unfold index_before. by rewrite Hi.
      * done.
Qed.

(** Objects.fromEntries on a Map with distinct string keys: the object has
    the entries of the Map, its keys in property order, those that are no
    array index in the order of the Map. *)
Lemma entries_to_object_strings (props : list (string * value)) :
  NoDup props.*1 →
  entries_to_object (prod_map VStr id <$> props) ≡ₚ props
  ∧ property_order (entries_to_object (prod_map VStr id <$> props)).*1 = true
  ∧ filter (λ p, array_index p.1 = None)
           (entries_to_object (prod_map VStr id <$> props))
    = filter (λ p, array_index p.1 = None) props.
Proof.
  unfold entries_to_object.
  assert (∀ acc : list (string * value),
    NoDup props.*1 → (∀ k, k ∈ props.*1 → k ∉ acc.*1) →
    let o := foldl (λ o e, obj_set (to_property_key e.1) e.2 o) acc
                   (prod_map VStr id <$> props) in
    o ≡ₚ acc ++ props
    ∧ (property_order acc.*1 = true → property_order o.*1 = true)
    ∧ filter (λ p, array_index p.1 = None) o
      = filter (λ p, array_index p.1 = None) acc
        ++ filter (λ p, array_index p.1 = None) props) as Hgen.
  { induction props as [|[k v] props IH]; intros acc Hnd Hfresh; csimpl.
    - rewrite !app_nil_r. done.
    - rewrite fmap_cons in Hnd. apply NoDup_cons in Hnd as [Hk Hnd].
      simpl in Hk.
      assert (k ∉ acc.*1) as Hacc by (apply Hfresh; by left).
      assert (obj_set k v acc = obj_insert k v acc) as Hset
        by (unfold obj_set; by rewrite has_own_false).
      cbv zeta. rewrite !Hset.
      destruct (IH (obj_insert k v acc) Hnd) as (Hperm & Horder & Hnamed).
      { intros k' Hk'. rewrite obj_insert_keys.
        apply not_elem_of_cons. split; [by intros ->|].
        apply Hfresh. by right. }
      split; [|split].
      + rewrite Hperm, obj_insert_perm. simpl. by rewrite Permutation_middle.
      + intros Hord. by apply Horder, obj_insert_order.
      + rewrite Hnamed, obj_insert_named, <- app_assoc. f_equal.
        by rewrite <- filter_app. }
  intros Hnd. destruct (Hgen [] Hnd) as (Hperm & Horder & Hnamed).
  { by intros k _ ?%elem_of_nil. }
  split; [done|]. split; [by apply Horder|done].
Qed.

(** ** toJSON *)

Lemma static_member_None k m :
  k ∉ (properties m).*1 → static_member k m = None.
Proof.
  unfold static_member.
  induction (properties m) as [|[k' d] ps IH] using rev_ind; [done|].
  rewrite fmap_app, foldl_app. simpl. intros Hk.
  destruct (String.eqb_spec k k') as [->|_].
  - exfalso. apply Hk, elem_of_app. right. by left.
  - apply IH. intros ?. apply Hk, elem_of_app. by left.
Qed.

Lemma get_name_run v w :
  get_name v w
  = match v with
    | VFunction _ n => (Return (VStr n), w)
    | VClass _ m =>
      match static_member "name" m with
      | Some d => (Return (VPlain (next_ref w) (definition_object d)), bump w)
      | None => (Return (VStr (class_name m)), w)
      end
    | VPlain _ props | VInstance _ _ props =>
      (Return (obj_get "name" props), w)
    | _ => (Return VUndefined, w)
    end.
Proof. destruct v; try reflexivity. simpl. by destruct (static_member _ _). Qed.

Lemma toJSON_run method w this md :
  metadata_of w this = Some md →
  headers_ready md = true →
  Builder.toJSON method this w
  = let finish (n : value) (o : gmap string value) :=
      let o := <["model" := n]> o in
      match method with
      | Some name => <["method" := VStr name]> o
      | None => o
      end in
    let '(o, w1) :=
      match default VUndefined (md !! "headers") with
      | VMap _ es =>
        (<["headers" := VPlain (next_ref w) (entries_to_object es)]> md,
         bump w)
      | _ => (md, w)
      end in
    match get_name (default VUndefined (md !! "model"))
                   (with_metadata w1 this md) with
    | (Return n, w2) => (Return (finish n o), w2)
    | (Throw e, w2) => (Throw e, w2)
    end.
Proof.
  intros Hmd Hready. rewrite (world_normal _ _ _ Hmd) at 1.
  unfold Builder.toJSON, headers_ready in *. run.
  destruct (default VUndefined (md !! "headers")) eqn:Hh; simpl in Hready;
    try discriminate; cbn [truthy];
    try (apply negb_true_iff in Hready; rewrite Hready);
    unfold fromEntries; run;
    by destruct (get_name _ _) as [[]].
Qed.

(** ** headers: merging and skipping *)

Lemma ensure_headers_entries w md :
  ∃ w1 r, ensure_headers w md = (w1, r, header_entries md).
Proof.
  unfold ensure_headers, header_entries.
  destruct (md !! "headers") as [[]|]; simpl; eauto.
Qed.

(** A dictionary whose keys are all accepted is merged into the header
    entries. *)
Lemma headers_merge_run w this md dictionary :
  metadata_of w this = Some md →
  headers_ready md = true →
  is_null dictionary = false →
  is_map dictionary || String.eqb (typeof dictionary) "object" = true →
  forallb key_ok (Builder.iterable dictionary) = true →
  ∃ w1 r,
    Builder.headers this dictionary w
    = (Return this,
       with_metadata w1 this
         (<["headers" := VMap r (merge_entries (header_entries md)
                                  (Builder.iterable dictionary))]> md)).
Proof.
  intros Hmd Hready Hnull Hobj Hkeys.
  rewrite (headers_run _ _ _ _ Hmd Hready).
  destruct (ensure_headers_entries w md) as (w1 & r & ->).
  rewrite Hnull, Hobj. unfold run_entries. rewrite run_loop_ok by done.
  by exists w1, r.
Qed.

Lemma merge_entries_skip es l :
  merge_entries es l
  = merge_entries es (List.filter (λ e, negb (nullish e.1)) l).
Proof.
  unfold merge_entries. revert es.
  induction l as [|e l IH]; intros es; simpl; [done|].
  destruct (nullish e.1) eqn:Hn; simpl.
  - unfold apply_entry at 2. rewrite Hn. apply IH.
  - apply IH.
Qed.

Lemma for_each_headers_skip this l w :
  for_each (Builder.headers_entry this) l w
  = for_each (Builder.headers_entry this)
             (List.filter (λ e, negb (nullish e.1)) l) w.
Proof.
  revert w. induction l as [|[k v] l IH]; intros w; [done|].
  cbn [for_each List.filter fst].
  destruct (nullish k) eqn:Hn; cbn [negb for_each]; rewrite !run_bind.
  - assert (Builder.headers_entry this (k, v) w = (Return (), w)) as ->;
      [|apply IH].
    unfold Builder.headers_entry. unfold nullish in Hn.
    by destruct (is_null k), (is_undefined k).
  - destruct (Builder.headers_entry this (k, v) w) as [[[]|e] w1];
      [apply IH | done].
Qed.

Lemma headers_skip this r l w :
  Builder.headers this (VMap r l) w
  = Builder.headers this (VMap r (List.filter (λ e, negb (nullish e.1)) l)) w.
Proof.
  unfold Builder.headers; simpl. rewrite !run_bind.
  destruct (get_field this "headers" w) as [[h|e] w1]; [|done].
  rewrite !run_bind.
  match goal with
  | |- context [(if negb (truthy h) then ?a else ?b) w1] =>
    destruct ((if negb (truthy h) then a else b) w1) as [[[]|e] w2]; [|done]
  end.
  rewrite !run_bind. by rewrite for_each_headers_skip.
Qed.

Lemma ensure_array_items field w md :
  ∃ w1 r, ensure_array field w md = (w1, r, field_items field md).
Proof.
  unfold ensure_array, field_items.
  destruct (default VUndefined (md !! field)); simpl; eauto.
Qed.

Lemma field_items_insert field r items (md : gmap string value) :
  field_items field (<[field := VArray r items]> md) = items.
Proof. unfold field_items. by rewrite lookup_insert_eq. Qed.

Lemma single_null_inv args : PutRequest.single_null args = true → args = [VNull].
Proof. by destruct args as [|[] [|? ?]]. Qed.

(** * The claims *)

(** C8: every builder method of DeleteRequest (model, count, all, where,
    from, clear, headers, meta), of PatchRequest (model, count, all,
    template, where, to, clear, headers, meta) and of PutRequest (model,
    count, pk, objects, to, clear, headers, meta), on every argument and in
    every store, returns the request it was called on whenever it returns
    at all. *)
Theorem C8_builder_methods_return_this (this : nat) (w w' : world) (r : nat) :
  (∀ c, delete_invoke this c w = (Return r, w') → r = this)
  ∧ (∀ c, patch_invoke this c w = (Return r, w') → r = this)
  ∧ (∀ c, put_invoke this c w = (Return r, w') → r = this).
Proof.
  split; [|split]; intros c H; symmetry.
  - exact (delete_invoke_fluent this c w r w' H).
  - exact (patch_invoke_fluent this c w r w' H).
  - exact (put_invoke_fluent this c w r w' H).
Qed.

Lemma C8_builder_methods_return_this_witness :
  (delete_invoke 100 (DWhere VNull) delete_world
   = (Return 100,
      with_metadata delete_world 100 (<["where" := VNull]> DeleteRequest.defaults))
   ∧ patch_invoke 100 (PTo (VStr "cars")) patch_world
     = (Return 100,
        with_metadata patch_world 100
          (<["to" := VStr "cars"]> PatchRequest.defaults))
   ∧ put_invoke 100 (UTo VNull) put_world
     = (Return 100, (put_invoke 100 (UTo VNull) put_world).2))
  ∧ 100 = 100.
Proof.
  assert (delete_invoke 100 (DWhere VNull) delete_world
          = (Return 100,
             with_metadata delete_world 100
               (<["where" := VNull]> DeleteRequest.defaults))) as Hd
    by (vm_compute; reflexivity).
  assert (patch_invoke 100 (PTo (VStr "cars")) patch_world
          = (Return 100,
             with_metadata patch_world 100
               (<["to" := VStr "cars"]> PatchRequest.defaults))) as Hp
    by (vm_compute; reflexivity).
  assert (put_invoke 100 (UTo VNull) put_world
          = (Return 100, (put_invoke 100 (UTo VNull) put_world).2)) as Hu
    by (vm_compute; reflexivity).
  split; [by repeat split|].
  exact (proj1 (C8_builder_methods_return_this 100 delete_world _ 100)
               (DWhere VNull) Hd).
Defined.

(** C6: the [where] setter of DeleteRequest and of PatchRequest, on a request
    with its metadata: null stores null; a Filter instance is stored as it
    is, the same reference; a function is called at once with a Filter
    created for the call (a new reference, an empty tree) and that Filter,
    as the function leaves it, is stored; any other value raises the
    argument error and leaves the store, and so the stored filter, as it
    was. *)
Theorem C6_where_setter (setter : nat → value → M nat) (w : world)
    (this : nat) (md : gmap string value) :
  setter = DeleteRequest.where_ ∨ setter = PatchRequest.where_ →
  metadata_of w this = Some md →
  setter this VNull w
  = (Return this, with_metadata w this (<["where" := VNull]> md))
  ∧ (∀ f, is_filter f = true →
       setter this f w
       = (Return this, with_metadata w this (<["where" := f]> md)))
  ∧ (∀ r n body props',
       functions w !! r = Some body →
       body [("tree", VNull)] = Return props' →
       setter this (VFunction r n) w
       = (Return this,
          with_metadata (bump w) this
            (<["where" := VInstance (next_ref w) "Filter" props']> md)))
  ∧ (∀ v, is_null v = false → is_filter v = false →
       typeof v ≠ "function" →
       setter this v w = (Throw InvalidConditions, w)).
Proof.
  intros Hsetter Hmd.
  assert (setter = DeleteRequest.where_) as ->
    by (destruct Hsetter as [->| ->]; [done | apply PatchRequest_where_eq]).
  split; [|split; [|split]].
  - rewrite (world_normal _ _ _ Hmd) at 1. apply where_null.
  - intros f Hf. rewrite (world_normal _ _ _ Hmd) at 1. by apply where_filter.
  - intros r n body props' Hbody Hrun.
    rewrite (world_normal _ _ _ Hmd) at 1.
    rewrite (where_callback _ _ _ r n body) by done. by rewrite Hrun.
  - intros v. apply where_other.
Qed.

Lemma C6_where_setter_witness :
  (DeleteRequest.where_ = DeleteRequest.where_
   ∨ DeleteRequest.where_ = PatchRequest.where_)
  ∧ metadata_of callback_world 100 = Some DeleteRequest.defaults
  ∧ functions callback_world !! 7 = Some sample_callback
  ∧ sample_callback [("tree", VNull)] = Return [("tree", sample_tree)]
  ∧ DeleteRequest.where_ 100 (VFunction 7 "") callback_world
    = (Return 100,
       with_metadata (bump callback_world) 100
         (<["where" := VInstance 101 "Filter" [("tree", sample_tree)]]>
            DeleteRequest.defaults)).
Proof.
  assert (metadata_of callback_world 100 = Some DeleteRequest.defaults) as Hmd
    by (vm_compute; reflexivity).
  assert (functions callback_world !! 7 = Some sample_callback) as Hf
    by reflexivity.
  assert (sample_callback [("tree", VNull)] = Return [("tree", sample_tree)])
    as Hrun by reflexivity.
  split; [by left|]. split; [done|]. split; [done|]. split; [done|].
  exact (proj1 (proj2 (proj2
           (C6_where_setter DeleteRequest.where_ callback_world 100
              DeleteRequest.defaults (or_introl eq_refl) Hmd)))
           7 "" sample_callback _ Hf Hrun).
Defined.

(** C9: the deprecated [meta] protects the keys of the STANDARD_METADATA of
    its class only (all, where, from on DeleteRequest; template, where, to
    on PatchRequest).  [meta(null)] deletes every other entry of the
    metadata, count, model and headers among them (and all on PatchRequest),
    and keeps the protected ones; [meta({count: v})] and [meta({model: v})]
    return normally and overwrite the field; a protected key is refused. *)
Theorem C9_meta_guards_only_standard_metadata (w : world) (this : nat)
    (md : gmap string value) :
  metadata_of w this = Some md →
  (∃ md',
     DeleteRequest.meta this VNull w = (Return this, with_metadata w this md')
     ∧ md' !! "count" = None ∧ md' !! "model" = None
     ∧ md' !! "headers" = None
     ∧ (∀ k, k ∉ DeleteRequest.STANDARD_METADATA → md' !! k = None)
     ∧ (∀ k, k ∈ DeleteRequest.STANDARD_METADATA → md' !! k = md !! k))
  ∧ (∃ md',
       PatchRequest.meta this VNull w = (Return this, with_metadata w this md')
       ∧ md' !! "count" = None ∧ md' !! "model" = None
       ∧ md' !! "headers" = None ∧ md' !! "all" = None
       ∧ (∀ k, k ∉ PatchRequest.STANDARD_METADATA → md' !! k = None)
       ∧ (∀ k, k ∈ PatchRequest.STANDARD_METADATA → md' !! k = md !! k))
  ∧ (∀ r k v, k = "count" ∨ k = "model" →
       DeleteRequest.meta this (VPlain r [(k, v)]) w
       = (Return this, with_metadata w this (<[k := v]> md))
       ∧ PatchRequest.meta this (VPlain r [(k, v)]) w
         = (Return this, with_metadata w this (<[k := v]> md)))
  ∧ (∀ r k v,
       (k ∈ DeleteRequest.STANDARD_METADATA →
        DeleteRequest.meta this (VPlain r [(k, v)]) w
        = (Throw (StandardMetadata k), w))
       ∧ (k ∈ PatchRequest.STANDARD_METADATA →
          PatchRequest.meta this (VPlain r [(k, v)]) w
          = (Throw (StandardMetadata k), w))).
Proof.
  intros Hmd. pose proof (world_normal _ _ _ Hmd) as Hw.
  split; [|split; [|split]].
  - exists (Builder.clear_non_standard DeleteRequest.STANDARD_METADATA md).
    split; [rewrite Hw at 1; apply meta_null|].
    rewrite !lookup_clear_non_standard.
    do 3 (split; [done|]).
    split; intros k Hk; rewrite lookup_clear_non_standard.
    + by rewrite bool_decide_eq_false_2.
    + by rewrite bool_decide_eq_true_2.
  - exists (Builder.clear_non_standard PatchRequest.STANDARD_METADATA md).
    split; [rewrite Hw at 1; apply meta_null|].
    rewrite !lookup_clear_non_standard.
    do 4 (split; [done|]).
    split; intros k Hk; rewrite lookup_clear_non_standard.
    + by rewrite bool_decide_eq_false_2.
    + by rewrite bool_decide_eq_true_2.
  - intros r k v Hk. unfold DeleteRequest.meta, PatchRequest.meta.
    rewrite Hw at 1 3. rewrite !meta_single. by destruct Hk as [-> | ->].
  - intros r k v. unfold DeleteRequest.meta, PatchRequest.meta.
    split; intros Hk; rewrite Hw at 1; rewrite meta_single;
      rewrite bool_decide_eq_true_2 by done; by rewrite <- Hw.
Qed.

Lemma C9_meta_guards_only_standard_metadata_witness :
  metadata_of delete_world 100 = Some DeleteRequest.defaults
  ∧ DeleteRequest.meta 100 (VPlain 1 [("count", VStr "yes")]) delete_world
    = (Return 100,
       with_metadata delete_world 100
         (<["count" := VStr "yes"]> DeleteRequest.defaults)).
Proof.
  assert (metadata_of delete_world 100 = Some DeleteRequest.defaults) as Hmd
    by (vm_compute; reflexivity).
  split; [done|].
  exact (proj1 (proj1 (proj2 (proj2
           (C9_meta_guards_only_standard_metadata delete_world 100
              DeleteRequest.defaults Hmd)))
           1 "count" (VStr "yes") (or_introl eq_refl))).
Defined.

(** Binding a model sets the resource name whatever it was before. *)
Lemma model_sets_resource_name w this md c m :
  metadata_of w this = Some md →
  (∃ md', DeleteRequest.model this (VClass c m) w
          = (Return this, with_metadata w this md')
          ∧ md' !! "from" = Some (VStr (ModelUtility.resource_name m)))
  ∧ (∃ md', PatchRequest.model this (VClass c m) w
            = (Return this, with_metadata w this md')
            ∧ md' !! "to" = Some (VStr (ModelUtility.resource_name m))).
Proof.
  intros Hmd. pose proof (world_normal _ _ _ Hmd) as Hw. split.
  - eexists. split; [rewrite Hw at 1; apply delete_model_run|].
    apply lookup_insert_eq.
  - eexists. split; [rewrite Hw at 1; apply patch_model_run|].
    apply lookup_insert_eq.
Qed.

(** C1 (the code departs from the claim): with the resource name set to
    'someresource' before binding, [model(MyModel)] replaces it by the
    resource name of the model, 'resource-abc', on PatchRequest (the very
    call of its test suite, which expects 'someresource'), on DeleteRequest
    and on PutRequest. *)
Theorem C1_model_overwrites_explicit_resource_name :
  ((r ← PatchRequest.constructor VUndefined;
    PatchRequest.to r (VStr "someresource");;
    PatchRequest.model r (VClass 1 MyModel);;
    get_field r "to") empty_world).1 = Return (VStr "resource-abc")
  ∧ ((r ← DeleteRequest.constructor;
      DeleteRequest.from r (VStr "someresource");;
      DeleteRequest.model r (VClass 1 MyModel);;
      get_field r "from") empty_world).1 = Return (VStr "resource-abc")
  ∧ ((r ← PutRequest.constructor VUndefined [];
      PutRequest.to r (VStr "someresource");;
      PutRequest.model r (VClass 1 MyModel);;
      get_field r "to") empty_world).1 = Return (VStr "resource-abc").
Proof. split; [|split]; vm_compute; reflexivity. Qed.

(** Clearing leaves count and model as they were, on the three classes, and
    all on PatchRequest. *)
Lemma clear_keeps_count_and_model w this md k :
  metadata_of w this = Some md →
  k = "count" ∨ k = "model" →
  (∃ md', DeleteRequest.clear this w = (Return this, with_metadata w this md')
          ∧ md' !! k = md !! k)
  ∧ (∃ md', PatchRequest.clear this w = (Return this, with_metadata w this md')
            ∧ md' !! k = md !! k ∧ md' !! "all" = md !! "all")
  ∧ (∃ w' md', PutRequest.clear this w = (Return this, with_metadata w' this md')
               ∧ md' !! k = md !! k).
Proof.
  intros Hmd Hk. pose proof (world_normal _ _ _ Hmd) as Hw.
  split; [|split].
  - eexists. split; [rewrite Hw at 1; apply delete_clear_run|].
    destruct Hk as [-> | ->]; by rewrite !lookup_insert_ne.
  - eexists. split; [rewrite Hw at 1; apply patch_clear_run|].
    destruct Hk as [-> | ->]; by rewrite !lookup_insert_ne.
  - eexists _, _. split; [rewrite Hw at 1; apply put_clear_run|].
    destruct Hk as [-> | ->]; by rewrite !lookup_insert_ne.
Qed.

(** C2 (the code departs from the claim): after [count()], [all()] and
    [model(MyModel)], [clear()] on a PatchRequest leaves count true, all true
    and the model bound; on a DeleteRequest and on a PutRequest it leaves
    count true and the model bound. *)
Theorem C2_clear_keeps_count_model_and_all :
  ((r ← PatchRequest.constructor VUndefined;
    PatchRequest.count r VUndefined;;
    PatchRequest.all r [];;
    PatchRequest.model r (VClass 1 MyModel);;
    PatchRequest.clear r;;
    md ← get_metadata r;
    mret (md !! "count", md !! "all", md !! "model")) empty_world).1
  = Return (Some (VBool true), Some (VBool true), Some (VClass 1 MyModel))
  ∧ ((r ← DeleteRequest.constructor;
      DeleteRequest.count r VUndefined;;
      DeleteRequest.model r (VClass 1 MyModel);;
      DeleteRequest.clear r;;
      md ← get_metadata r;
      mret (md !! "count", md !! "model")) empty_world).1
    = Return (Some (VBool true), Some (VClass 1 MyModel))
  ∧ ((r ← PutRequest.constructor VUndefined [];
      PutRequest.count r VUndefined;;
      PutRequest.model r (VClass 1 MyModel);;
      PutRequest.clear r;;
      md ← get_metadata r;
      mret (md !! "count", md !! "model")) empty_world).1
    = Return (Some (VBool true), Some (VClass 1 MyModel)).
Proof. split; [|split]; vm_compute; reflexivity. Qed.

(** C3, as stated, fails: a Map entry whose key is null is an entry whose key
    is not a string, and [headers] returns normally on it (the test
    'skips null or undefined keys' of the PatchRequest suite). *)
Lemma C3_null_key_is_not_refused :
  let dictionary := VMap 1 [(VNull, VBool true); (VStr "ok", VBool true)] in
  (∃ e, e ∈ Builder.iterable dictionary ∧ typeof e.1 ≠ "string")
  ∧ (PatchRequest.headers 100 dictionary patch_world).1 = Return 100
  ∧ (PatchRequest.headers 100 dictionary patch_world).1 ≠ Throw NonStringKey.
Proof.
  cbv zeta. split; [|split].
  - exists (VNull, VBool true). split; [by left | discriminate].
  - vm_compute; reflexivity.
  - vm_compute; discriminate.
Qed.

(** C3, amended: on a request whose header field is unset or a Map,
    [headers(dictionary)], for a Map or an object all of whose keys are
    strings, null or undefined, returns the request and merges the entries
    into the header map: a string key holds the last value the dictionary
    gives for it, is absent when that value is null or undefined, and is as
    before when the dictionary does not mention it; [headers(null)] leaves
    an empty map; an entry whose key is neither null, nor undefined, nor a
    string raises the key error; [headers()] without argument raises the
    argument error. *)
Theorem C3_headers_merge_clear_and_errors (headers : nat → value → M nat)
    (w : world) (this : nat) (md : gmap string value) :
  headers = DeleteRequest.headers ∨ headers = PatchRequest.headers
  ∨ headers = PutRequest.headers →
  metadata_of w this = Some md →
  headers_ready md = true →
  (∀ dictionary,
     is_null dictionary = false →
     is_map dictionary || String.eqb (typeof dictionary) "object" = true →
     forallb key_ok (Builder.iterable dictionary) = true →
     ∃ w' md',
       headers this dictionary w = (Return this, w')
       ∧ metadata_of w' this = Some md'
       ∧ is_map (default VUndefined (md' !! "headers")) = true
       ∧ (∀ k, map_get (VStr k) (header_entries md')
               = match last_binding k (Builder.iterable dictionary) with
                 | Some v => if nullish v then None else Some v
                 | None => map_get (VStr k) (header_entries md)
                 end)
       ∧ (∀ f, f ≠ "headers" → md' !! f = md !! f))
  ∧ (∃ w' md' r,
       headers this VNull w = (Return this, w')
       ∧ metadata_of w' this = Some md'
       ∧ md' !! "headers" = Some (VMap r []))
  ∧ (∀ dictionary,
       is_null dictionary = false →
       is_map dictionary || String.eqb (typeof dictionary) "object" = true →
       (∃ e, e ∈ Builder.iterable dictionary ∧ nullish e.1 = false
             ∧ typeof e.1 ≠ "string") →
       (headers this dictionary w).1 = Throw NonStringKey)
  ∧ (headers this VUndefined w).1 = Throw InvalidDictionary.
Proof.
  intros Hh Hmd Hready.
  assert (headers = Builder.headers) as ->
    by (destruct Hh as [-> | [-> | ->]]; reflexivity).
  split; [|split; [|split]].
  - intros dictionary Hnull Hobj Hkeys.
    destruct (headers_merge_run _ _ _ _ Hmd Hready Hnull Hobj Hkeys)
      as (w1 & r & ->).
    eexists _, _. split; [done|]. split; [apply metadata_of_with|].
    rewrite lookup_insert_eq; simpl. split; [done|]. split.
    + intros k. unfold header_entries at 1. rewrite lookup_insert_eq.
      apply map_get_merge.
    + intros f Hf. by rewrite lookup_insert_ne.
  - rewrite (headers_run _ _ _ _ Hmd Hready).
    destruct (ensure_headers_entries w md) as (w1 & r & ->); simpl.
    eexists _, _, r. split; [done|]. split; [apply metadata_of_with|].
    apply lookup_insert_eq.
  - intros dictionary Hnull Hobj (e & He & Hn & Ht).
    rewrite (headers_run _ _ _ _ Hmd Hready).
    destruct (ensure_headers_entries w md) as (w1 & r & ->).
    rewrite Hnull, Hobj.
    assert (forallb key_ok (Builder.iterable dictionary) = false) as Hbad.
    { destruct (forallb key_ok (Builder.iterable dictionary)) eqn:E; [|done].
      rewrite forallb_forall in E.
      specialize (E e (proj1 (list_elem_of_In _ _) He)).
      unfold key_ok in E. rewrite Hn in E; simpl in E.
      by apply String.eqb_eq in E. }
    pose proof (run_loop_refused key_ok apply_entry NonStringKey
                  (header_entries md) _ Hbad) as Hrun.
    unfold run_entries. destruct (run_loop _ _ _ _ _) as [o es'].
    simpl in *. by subst o.
  - rewrite (headers_run _ _ _ _ Hmd Hready).
    by destruct (ensure_headers_entries w md) as (w1 & r & ->).
Qed.

Lemma C3_headers_merge_clear_and_errors_witness :
  (PatchRequest.headers = DeleteRequest.headers
   ∨ PatchRequest.headers = PatchRequest.headers
   ∨ PatchRequest.headers = PutRequest.headers)
  ∧ metadata_of patch_world 100 = Some PatchRequest.defaults
  ∧ headers_ready PatchRequest.defaults = true
  ∧ (∃ e, e ∈ Builder.iterable
              (VMap 1 [(VStr "ok", VBool true); (VNum 123, VBool true)])
          ∧ nullish e.1 = false ∧ typeof e.1 ≠ "string")
  ∧ (PatchRequest.headers 100
       (VMap 1 [(VStr "ok", VBool true); (VNum 123, VBool true)])
       patch_world).1 = Throw NonStringKey.
Proof.
  assert (metadata_of patch_world 100 = Some PatchRequest.defaults) as Hmd
    by (vm_compute; reflexivity).
  assert (headers_ready PatchRequest.defaults = true) as Hready
    by (vm_compute; reflexivity).
  assert (∃ e, e ∈ Builder.iterable
                 (VMap 1 [(VStr "ok", VBool true); (VNum 123, VBool true)])
             ∧ nullish e.1 = false ∧ typeof e.1 ≠ "string") as Hbad.
  { exists (VNum 123, VBool true). split; [right; by left|].
    split; [reflexivity | discriminate]. }
  split; [right; by left|]. split; [done|]. split; [done|]. split; [done|].
  exact (proj1 (proj2 (proj2
           (C3_headers_merge_clear_and_errors PatchRequest.headers patch_world
              100 PatchRequest.defaults (or_intror (or_introl eq_refl))
              Hmd Hready)))
           (VMap 1 [(VStr "ok", VBool true); (VNum 123, VBool true)])
           eq_refl eq_refl Hbad).
Defined.

(** C10: in a call of [headers] with a Map, of any of the three classes, the
    entries whose key is null or undefined are skipped: the call does what
    it does on the Map without them, to the outcome and to the store; and
    when the other keys are strings, on a request whose header field is
    unset or a Map, it returns the request with those other entries merged
    into the header map. *)
Theorem C10_null_and_undefined_keys_skipped (headers : nat → value → M nat)
    (w : world) (this r : nat) (l : list (value * value)) :
  headers = DeleteRequest.headers ∨ headers = PatchRequest.headers
  ∨ headers = PutRequest.headers →
  headers this (VMap r l) w
  = headers this (VMap r (List.filter (λ e, negb (nullish e.1)) l)) w
  ∧ (∀ md,
       metadata_of w this = Some md →
       headers_ready md = true →
       (∀ e, e ∈ l → nullish e.1 = false → typeof e.1 = "string") →
       ∃ w' md',
         headers this (VMap r l) w = (Return this, w')
         ∧ metadata_of w' this = Some md'
         ∧ header_entries md'
           = merge_entries (header_entries md)
               (List.filter (λ e, negb (nullish e.1)) l)).
Proof.
  intros Hh.
  assert (headers = Builder.headers) as ->
    by (destruct Hh as [-> | [-> | ->]]; reflexivity).
  split; [apply headers_skip|].
  intros md Hmd Hready Hkeys.
  assert (forallb key_ok (Builder.iterable (VMap r l)) = true) as Hok.
  { apply forallb_forall. intros e He%list_elem_of_In. unfold key_ok.
    destruct (nullish e.1) eqn:Hn; [done|]. simpl.
    apply String.eqb_eq. by apply Hkeys. }
  destruct (headers_merge_run w this md (VMap r l) Hmd Hready eq_refl eq_refl
              Hok) as (w1 & r1 & ->).
  eexists _, _. split; [done|]. split; [apply metadata_of_with|].
  unfold header_entries at 1. rewrite lookup_insert_eq.
  apply merge_entries_skip.
Qed.

Lemma C10_null_and_undefined_keys_skipped_witness :
  (PatchRequest.headers = DeleteRequest.headers
   ∨ PatchRequest.headers = PatchRequest.headers
   ∨ PatchRequest.headers = PutRequest.headers)
  ∧ PatchRequest.headers 100
      (VMap 1 [(VNull, VBool true); (VStr "ok", VBool true)]) patch_world
    = PatchRequest.headers 100 (VMap 1 [(VStr "ok", VBool true)]) patch_world.
Proof.
  split; [right; by left|].
  exact (proj1 (C10_null_and_undefined_keys_skipped PatchRequest.headers
                  patch_world 100 1
                  [(VNull, VBool true); (VStr "ok", VBool true)]
                  (or_intror (or_introl eq_refl)))).
Defined.

(** C4: [objects(...)] of a PutRequest raises the argument error whenever
    one of the entries supplied (arrays flattened) is neither null, nor
    undefined, nor an object; and when it returns, on a request holding no
    object reference twice, the request still holds none twice, and every
    object supplied is held exactly once, however many times it was
    supplied in this call or held before it. *)
Theorem C4_objects_reject_and_deduplicate (w : world) (this : nat)
    (md : gmap string value) (args : list value) :
  metadata_of w this = Some md →
  ((∃ o, o ∈ flat_infinity args ∧ nullish o = false ∧ typeof o ≠ "object") →
   (PutRequest.objects this args w).1 = Throw InvalidObjects)
  ∧ (NoDup (refs (field_items "objects" md)) →
     ∀ w', PutRequest.objects this args w = (Return this, w') →
       ∃ md',
         metadata_of w' this = Some md'
         ∧ NoDup (refs (field_items "objects" md'))
         ∧ (PutRequest.single_null args = false →
            ∀ o, o ∈ flat_infinity args → nullish o = false →
                 occurrences o (field_items "objects" md') = 1)).
Proof.
  intros Hmd. rewrite (objects_run _ _ _ _ Hmd).
  destruct (ensure_array_items "objects" w md) as (w1 & r & ->).
  destruct (PutRequest.single_null args) eqn:Hs.
  - apply single_null_inv in Hs as ->. split.
    + intros (o & Ho & Hn & _). apply list_elem_of_singleton in Ho. by subst.
    + intros _ w' [= <-]. eexists. split; [apply metadata_of_with|].
      rewrite field_items_insert. split; [apply NoDup_nil_2 | done].
  - destruct (forallb object_ok (flat_infinity args)) eqn:Hok.
    + rewrite run_loop_ok by done. split.
      * intros (o & Ho & Hn & Ht). rewrite forallb_forall in Hok.
        specialize (Hok o (proj1 (list_elem_of_In _ _) Ho)).
        unfold object_ok in Hok. rewrite Hn in Hok; simpl in Hok.
        by apply String.eqb_eq in Hok.
      * intros Hnd w' [= <-].
        destruct (push_objects_spec _ _ Hok Hnd) as (H1 & _ & H3).
        eexists. split; [apply metadata_of_with|].
        rewrite field_items_insert. split; [done|].
        intros _ o Ho Hn. destruct (H3 o Ho Hn) as (ro & Hro & Hin).
        by apply (occurrences_once o ro).
    + pose proof (run_loop_refused object_ok push_object InvalidObjects
                    (field_items "objects" md) _ Hok) as Hrun.
      destruct (run_loop _ _ _ _ _) as [o items']. simpl in Hrun. subst o.
      split; [done|]. by intros _ w' [=].
Qed.

Lemma C4_objects_reject_and_deduplicate_witness :
  metadata_of put_world 100 = Some put_defaults
  ∧ ((∃ o, o ∈ flat_infinity [VPlain 1 []; VArray 2 [VNum 5]]
           ∧ nullish o = false ∧ typeof o ≠ "object")
     ∧ (PutRequest.objects 100 [VPlain 1 []; VArray 2 [VNum 5]] put_world).1
       = Throw InvalidObjects)
  ∧ (NoDup (refs (field_items "objects" put_defaults))
     ∧ ∃ w' md',
         PutRequest.objects 100 [VPlain 1 []; VArray 2 [VPlain 1 []]] put_world
         = (Return 100, w')
         ∧ metadata_of w' 100 = Some md'
         ∧ occurrences (VPlain 1 []) (field_items "objects" md') = 1).
Proof.
  assert (metadata_of put_world 100 = Some put_defaults) as Hmd
    by (vm_compute; reflexivity).
  assert (∃ o, o ∈ flat_infinity [VPlain 1 []; VArray 2 [VNum 5]]
             ∧ nullish o = false ∧ typeof o ≠ "object") as Hbad.
  { exists (VNum 5). split; [right; by left|].
    split; [reflexivity | discriminate]. }
  assert (NoDup (refs (field_items "objects" put_defaults))) as Hnd
    by apply NoDup_nil_2.
  assert (PutRequest.objects 100 [VPlain 1 []; VArray 2 [VPlain 1 []]] put_world
          = (Return 100,
             (PutRequest.objects 100 [VPlain 1 []; VArray 2 [VPlain 1 []]]
                put_world).2)) as Hrun
    by (vm_compute; reflexivity).
  split; [done|]. split.
  - split; [done|].
    exact (proj1 (C4_objects_reject_and_deduplicate put_world 100 put_defaults
                    [VPlain 1 []; VArray 2 [VNum 5]] Hmd) Hbad).
  - split; [done|].
    destruct (proj2 (C4_objects_reject_and_deduplicate put_world 100
                       put_defaults [VPlain 1 []; VArray 2 [VPlain 1 []]] Hmd)
                Hnd _ Hrun) as (md' & Hmd' & _ & Honce).
    eexists _, md'. split; [exact Hrun|]. split; [done|].
    apply Honce; [reflexivity | by left | reflexivity].
Defined.

(** The same object given twice to the constructor, once more inside an
    array and once more in a later call is held once. *)
Example objects_held_once :
  let o1 := VPlain 1 [("ID", VNum 1)] in
  let o2 := VPlain 2 [("ID", VNum 2)] in
  ((r ← PutRequest.constructor VUndefined [o1; o1];
    PutRequest.objects r [VArray 3 [o1; VArray 4 [o2]]];;
    PutRequest.objects r [o2; VNull; VUndefined];;
    a ← get_field r "objects";
    mret (array_items a)) empty_world).1 = Return (Some [o1; o2]).
Proof. vm_compute; reflexivity. Qed.

(** C5: [model(modelType)] of a PutRequest, for every model class (its
    property names distinct and not empty, as a class declares them) and
    whatever the primary keys of the request were, returns the request with
    its primary keys being exactly the names of the properties the model
    declares with [pk: true], in declaration order. *)
Theorem C5_model_recomputes_pk (w : world) (this c : nat) (m : ModelType)
    (md : gmap string value) :
  metadata_of w this = Some md →
  model_wf m →
  ModelUtility.pk (VClass c m)
  = VStr <$> (filter (λ p, pk p.2 = true) (properties m)).*1
  ∧ ∃ w' md' r,
      PutRequest.model this (VClass c m) w = (Return this, w')
      ∧ metadata_of w' this = Some md'
      ∧ md' !! "pk" = Some (VArray r (ModelUtility.pk (VClass c m))).
Proof.
  intros Hmd Hwf. split; [done|].
  destruct (put_model_run w this md c m Hwf) as (w' & r & Hrun).
  rewrite <- (world_normal _ _ _ Hmd) in Hrun.
  eexists _, _, r. split; [exact Hrun|]. split; [apply metadata_of_with|].
  apply lookup_insert_eq.
Qed.

Lemma C5_model_recomputes_pk_witness :
  metadata_of (PutRequest.pk 100 [VStr "Old"; VStr "ID"] put_world).2 100
  = Some (<["pk" := VArray 101 [VStr "Old"; VStr "ID"]]> put_defaults)
  ∧ model_wf BaseThemeModel
  ∧ ∃ w' md' r,
      PutRequest.model 100 (VClass 1 BaseThemeModel)
        (PutRequest.pk 100 [VStr "Old"; VStr "ID"] put_world).2
      = (Return 100, w')
      ∧ metadata_of w' 100 = Some md'
      ∧ md' !! "pk" = Some (VArray r [VStr "ID"]).
Proof.
  assert (metadata_of (PutRequest.pk 100 [VStr "Old"; VStr "ID"] put_world).2
            100
          = Some (<["pk" := VArray 101 [VStr "Old"; VStr "ID"]]> put_defaults))
    as Hmd by (vm_compute; reflexivity).
  assert (model_wf BaseThemeModel) as Hwf.
  { unfold model_wf. apply (bool_decide_unpack _). by vm_compute. }
  split; [done|]. split; [done|].
  exact (proj2 (C5_model_recomputes_pk _ 100 1 BaseThemeModel _ Hmd Hwf)).
Defined.

(** C7, as stated, fails: a model class with a static property called name
    has that property where a class has its name, so that [toJSON()] of a
    request bound to it gives model the definition of the property, an
    object, and not the name of the class. *)
Lemma C7_static_name_shadows_class_name :
  ModelUtility.isValidType (VClass 1 Person) = true
  ∧ ∃ o w',
      (r ← PatchRequest.constructor VUndefined;
       PatchRequest.model r (VClass 1 Person);;
       PatchRequest.toJSON r) empty_world = (Return o, w')
      ∧ o !! "model"
        = Some (VPlain 101 [("target", VStr "Name"); ("type", VStr "String")])
      ∧ o !! "model" ≠ Some (VStr (class_name Person)).
Proof.
  split; [reflexivity|]. eexists _, _.
  split; [vm_compute; reflexivity|].
  split; [vm_compute; reflexivity | vm_compute; discriminate].
Qed.

(** C7, amended: [toJSON()] of the three classes, on a request whose header
    field is unset or a Map, returns a copy of the metadata in which model
    is the name of the bound model class, a string, when the class declares
    no static member called name (and the value of that member, a property
    definition, when it declares one; undefined when no model is bound), and
    in which a header Map with distinct string keys is replaced by a plain
    object with the entries of the Map, listed as JavaScript lists
    properties: the keys that are array indices first, ascending, the others
    in the order of the Map (an unset header field is copied as it is);
    every other entry is copied unchanged, Delete and Put adding their
    method; the metadata of the request is left as it was. *)
Theorem C7_toJSON_flattens_headers_and_names_model
    (toJSON : nat → M (gmap string value)) (w : world) (this : nat)
    (md : gmap string value) :
  toJSON = DeleteRequest.toJSON ∨ toJSON = PatchRequest.toJSON
  ∨ toJSON = PutRequest.toJSON →
  metadata_of w this = Some md →
  headers_ready md = true →
  ∃ o w',
    toJSON this w = (Return o, w')
    ∧ metadata_of w' this = Some md
    ∧ (∀ c m, md !! "model" = Some (VClass c m) →
         "name" ∉ (properties m).*1 →
         o !! "model" = Some (VStr (class_name m)))
    ∧ (∀ c m d, md !! "model" = Some (VClass c m) →
         static_member "name" m = Some d →
         ∃ r, o !! "model" = Some (VPlain r (definition_object d)))
    ∧ (md !! "model" = Some VNull ∨ md !! "model" = None →
       o !! "model" = Some VUndefined)
    ∧ (∀ r props,
         md !! "headers" = Some (VMap r (prod_map VStr id <$> props)) →
         NoDup props.*1 →
         ∃ r' props',
           o !! "headers" = Some (VPlain r' props')
           ∧ props' ≡ₚ props
           ∧ property_order props'.*1 = true
           ∧ filter (λ p, array_index p.1 = None) props'
             = filter (λ p, array_index p.1 = None) props)
    ∧ (is_map (default VUndefined (md !! "headers")) = false →
       o !! "headers" = md !! "headers")
    ∧ (∀ k, k ≠ "headers" → k ≠ "model" → k ≠ "method" → o !! k = md !! k)
    ∧ (toJSON = DeleteRequest.toJSON → o !! "method" = Some (VStr "delete"))
    ∧ (toJSON = PutRequest.toJSON → o !! "method" = Some (VStr "put")).
Proof.
  intros Hto Hmd Hready.
  assert (∃ method, toJSON = Builder.toJSON method
            ∧ (toJSON = DeleteRequest.toJSON → method = Some "delete")
            ∧ (toJSON = PutRequest.toJSON → method = Some "put"))
    as (method & -> & Hdel & Hput).
  { destruct Hto as [-> | [-> | ->]].
    - exists (Some "delete"). split; [done|]. split; [done|].
      intros H. apply (f_equal (λ f, (f 100 delete_world).1)) in H.
      vm_compute in H. discriminate.
    - exists None. split; [done|]. split; intros H.
      + apply (f_equal (λ f, (f 100 delete_world).1)) in H.
        vm_compute in H. discriminate.
      + apply (f_equal (λ f, (f 100 delete_world).1)) in H.
        vm_compute in H. discriminate.
    - exists (Some "put"). split; [done|]. split; [|done].
      intros H. apply (f_equal (λ f, (f 100 delete_world).1)) in H.
      vm_compute in H. discriminate. }
  rewrite (toJSON_run _ _ _ _ Hmd Hready). cbv zeta.
  set (finish := λ (n : value) (o : gmap string value),
    match method with
    | Some name => <["method" := VStr name]> (<["model" := n]> o)
    | None => <["model" := n]> o
    end).
  assert (∀ n o, finish n o !! "model" = Some n) as Hmodel.
  { intros n o. unfold finish. destruct method; by simplify_map_eq. }
  assert (∀ n (o : gmap string value) k, k ≠ "model" → k ≠ "method" →
    finish n o !! k = o !! k) as Hother.
  { intros n o k ? ?. unfold finish. destruct method; by simplify_map_eq. }
  assert (∀ n (o : gmap string value) name, method = Some name →
    finish n o !! "method" = Some (VStr name)) as Hmethod.
  { intros n o name ->. unfold finish. by simplify_map_eq. }
  clearbody finish.
  (* the flattened clone [hs] and the store [w1] after it *)
  set (flat := match default VUndefined (md !! "headers") with
               | VMap _ es =>
                 (<["headers" := VPlain (next_ref w) (entries_to_object es)]> md,
                  bump w)
               | _ => (md, w)
               end).
  assert ((∀ r props,
             md !! "headers" = Some (VMap r (prod_map VStr id <$> props)) →
             NoDup props.*1 →
             ∃ r' props',
               flat.1 !! "headers" = Some (VPlain r' props')
               ∧ props' ≡ₚ props
               ∧ property_order props'.*1 = true
               ∧ filter (λ p, array_index p.1 = None) props'
                 = filter (λ p, array_index p.1 = None) props)
          ∧ (is_map (default VUndefined (md !! "headers")) = false →
             flat.1 !! "headers" = md !! "headers")
          ∧ (∀ k, k ≠ "headers" → flat.1 !! k = md !! k)) as Hflat.
  { unfold flat. destruct (default VUndefined (md !! "headers")) eqn:Hh; simpl.
    all: try (split; [intros r' props' H'; rewrite H' in Hh; discriminate|];
              split; done).
    split; [|split; [discriminate|]].
    - intros r' props' H' Hnd. rewrite H' in Hh. simpl in Hh.
      injection Hh as <- <-. rewrite lookup_insert_eq.
      destruct (entries_to_object_strings props' Hnd) as (? & ? & ?).
      by eexists _, _.
    - intros k ?. by rewrite lookup_insert_ne. }
  destruct flat as [hs w1]. simpl in Hflat.
  destruct Hflat as (Hheaders & Hunset & Hcopy).
  assert (∃ n w2,
    get_name (default VUndefined (md !! "model")) (with_metadata w1 this md)
    = (Return n, w2)
    ∧ metadata_of w2 this = Some md
    ∧ (∀ c m, md !! "model" = Some (VClass c m) →
         "name" ∉ (properties m).*1 → n = VStr (class_name m))
    ∧ (∀ c m d, md !! "model" = Some (VClass c m) →
         static_member "name" m = Some d →
         ∃ r, n = VPlain r (definition_object d))
    ∧ (md !! "model" = Some VNull ∨ md !! "model" = None → n = VUndefined))
    as (n & w2 & -> & Hmd2 & Hclass & Hstatic & Hnone).
  { rewrite get_name_run.
    destruct (md !! "model") as [model|] eqn:Hm; simpl.
    2: { eexists _, _. split; [reflexivity|].
         split; [apply metadata_of_with|]. by repeat split. }
    destruct model; try (eexists _, _; split; [reflexivity|];
      split; [apply metadata_of_with|]; repeat split; try done;
      by intros [|]).
    destruct (static_member "name" m) as [d|] eqn:Hs.
    - eexists _, _. split; [reflexivity|].
      split; [apply (metadata_of_with (bump w1))|].
      split; [|split].
      + intros c' m' [= _ <-] Hno. by rewrite static_member_None in Hs.
      + intros c' m' d' [= _ <-]. rewrite Hs. intros [= <-]. by eexists.
      + by intros [|].
    - eexists _, _. split; [reflexivity|].
      split; [apply metadata_of_with|].
      split; [|split].
      + by intros c' m' [= _ <-] _.
      + intros c' m' d' [= _ <-]. by rewrite Hs.
      + by intros [|]. }
  exists (finish n hs), w2. split; [done|]. split; [done|].
  split; [intros c m H1 H2; by rewrite Hmodel, (Hclass c m H1 H2)|].
  split; [intros c m d H1 H2; destruct (Hstatic c m d H1 H2) as [r ->];
          exists r; by rewrite Hmodel|].
  split; [intros H; by rewrite Hmodel, (Hnone H)|].
  split; [intros r props H1 H2; rewrite Hother by done; by apply (Hheaders r)|].
  split; [intros H; rewrite Hother by done; by apply Hunset|].
  split; [intros k ? ? ?; rewrite Hother by done; by apply Hcopy|].
  split; intros H; apply Hmethod; auto.
Qed.

Lemma C7_toJSON_flattens_headers_and_names_model_witness :
  (PatchRequest.toJSON = DeleteRequest.toJSON
   ∨ PatchRequest.toJSON = PatchRequest.toJSON
   ∨ PatchRequest.toJSON = PutRequest.toJSON)
  ∧ metadata_of bound_world 100 = Some bound_metadata
  ∧ headers_ready bound_metadata = true
  ∧ ∃ o w' r props,
      PatchRequest.toJSON 100 bound_world = (Return o, w')
      ∧ o !! "model" = Some (VStr "MyModel")
      ∧ o !! "headers" = Some (VPlain r props)
      ∧ props ≡ₚ [("hello", VStr "world")]
      ∧ o !! "to" = Some (VStr "resource-abc").
Proof.
  assert (metadata_of bound_world 100 = Some bound_metadata) as Hmd
    by (vm_compute; reflexivity).
  assert (headers_ready bound_metadata = true) as Hready
    by (vm_compute; reflexivity).
  split; [right; by left|]. split; [done|]. split; [done|].
  destruct (C7_toJSON_flattens_headers_and_names_model PatchRequest.toJSON
              bound_world 100 bound_metadata (or_intror (or_introl eq_refl))
              Hmd Hready)
    as (o & w' & Hrun & _ & Hmodel & _ & _ & Hheaders & _ & Hother & _).
  destruct (Hheaders 101 [("hello", VStr "world")])
    as (r & props & Hr & Hperm & _);
    [vm_compute; reflexivity | apply NoDup_singleton |].
  exists o, w', r, props. split; [done|].
  split; [apply (Hmodel 2 MyModel);
          [vm_compute; reflexivity | by intros ?%elem_of_nil]|].
  split; [done|]. split; [done|].
  rewrite Hother by done. vm_compute; reflexivity.
Defined.

(** [toJSON()] on the header Map of b, 1, a, 0: the object lists 0 and 1
    first, then b and a. *)
Example toJSON_lists_array_indices_first :
  ∃ o w',
    PatchRequest.toJSON 100 indexed_world = (Return o, w')
    ∧ o !! "headers"
      = Some (VPlain 102 [("0", VNum 4); ("1", VNum 2); ("b", VNum 1);
                          ("a", VNum 3)]).
Proof. eexists _, _. split; vm_compute; reflexivity. Qed.

(** * The test suite of PatchRequest, describe '#headers' *)

(** 'deletes the header if the value for the key is null or undefined': the
    sizes of the header map after each of the three calls. *)
Example headers_delete_on_null_or_undefined :
  let size (r : nat) : M nat :=
    h ← get_field r "headers";
    mret (match h with VMap _ es => length es | _ => 0 end) in
  ((r ← PatchRequest.constructor VUndefined;
    PatchRequest.headers r
      (VPlain 1 [("a", VNum 1); ("b", VStr "hi"); ("c", VBool true)]);;
    n1 ← size r;
    PatchRequest.headers r (VPlain 2 [("b", VNull)]);;
    n2 ← size r;
    PatchRequest.headers r (VPlain 3 [("c", VUndefined)]);;
    n3 ← size r;
    mret (n1, n2, n3)) empty_world).1 = Return (3, 2, 1).
Proof. vm_compute; reflexivity. Qed.

(** 'merges properties from subsequent calls' and 'should clear any headers
    when null is passed'. *)
Example headers_merge_then_clear :
  ((r ← PatchRequest.constructor VUndefined;
    PatchRequest.headers r
      (VMap 1 [(VStr "a", VNum 1); (VStr "b", VStr "hi");
               (VStr "c", VBool true)]);;
    PatchRequest.headers r (VPlain 2 [("b", VStr "dinosaurs")]);;
    merged ← get_field r "headers";
    PatchRequest.headers r VNull;;
    cleared ← get_field r "headers";
    mret (merged, cleared)) empty_world).1
  = Return (VMap 101 [(VStr "a", VNum 1); (VStr "b", VStr "dinosaurs");
                      (VStr "c", VBool true)],
            VMap 101 []).
Proof. vm_compute; reflexivity. Qed.

(** 'throws when the dictionary argument is missing' and 'throws when the a
    non-string key is defined'. *)
Example headers_errors :
  (PatchRequest.headers 100 VUndefined patch_world).1 = Throw InvalidDictionary
  ∧ (PatchRequest.headers 100 (VNum 244) patch_world).1
    = Throw InvalidDictionary
  ∧ (PatchRequest.headers 100
       (VMap 1 [(VStr "ok", VBool true); (VNum 123, VBool true)])
       patch_world).1 = Throw NonStringKey.
Proof. repeat split; vm_compute; reflexivity. Qed.
